(** * NoxRunner local sandbox: path sanitizer, tar handler and local backend

    A shallow embedding of
      - [noxrunner/security/path_sanitizer.py]  (class [PathSanitizer]),
      - [noxrunner/fileops/tar_handler.py]      (class [TarHandler]),
      - [noxrunner/local_sandbox.py]            (class [LocalSandboxBackend]),
    followed by the properties of these functions.

    Conventions.  A Python [str] is a [string]; the character operations
    ([lower], [isalnum], [strip]) are the ASCII ones, so the development
    speaks about ASCII text.  A [pathlib.Path] is a [Path]: a root marker and
    the list of its components, built by [Path_of] the way [PurePosixPath]
    parses a string.  [Path.resolve()] asks the operating system; it is a
    parameter [resolve] of every function that calls it, and [lexical_resolve]
    is the instance for a file system without symbolic links. *)

From stdpp Require Import base strings list gmap.
From Stdlib Require Import ZArith Ascii String DecimalString Lia.

Open Scope string_scope.
Open Scope list_scope.

(** ** Python [str] operations used by the sources *)

Module PyStr.

Definition is_upper (c : ascii) : bool :=
  let n := nat_of_ascii c in (65 <=? n)%nat && (n <=? 90)%nat.

Definition is_lower (c : ascii) : bool :=
  let n := nat_of_ascii c in (97 <=? n)%nat && (n <=? 122)%nat.

Definition is_digit (c : ascii) : bool :=
  let n := nat_of_ascii c in (48 <=? n)%nat && (n <=? 57)%nat.

(** [c.isalnum()] *)
Definition isalnum (c : ascii) : bool := is_upper c || is_lower c || is_digit c.

(** the characters [str.strip()] removes: TAB LF VT FF CR, FS GS RS US, SPACE *)
Definition isspace (c : ascii) : bool :=
  let n := nat_of_ascii c in
  ((9 <=? n)%nat && (n <=? 13)%nat) || ((28 <=? n)%nat && (n <=? 32)%nat).

Definition lower_char (c : ascii) : ascii :=
  if is_upper c then ascii_of_nat (nat_of_ascii c + 32) else c.

(** [s.lower()] *)
Fixpoint lower (s : string) : string :=
  match s with
  | EmptyString => EmptyString
  | String c s' => String (lower_char c) (lower s')
  end.

(** [s.startswith(p)] *)
Fixpoint startswith (p s : string) : bool :=
  match p, s with
  | EmptyString, _ => true
  | String a p', String b s' => if decide (a = b) then startswith p' s' else false
  | String _ _, EmptyString => false
  end.

(** [sub in s] *)
Fixpoint contains (sub s : string) : bool :=
  startswith sub s ||
  match s with
  | EmptyString => false
  | String _ s' => contains sub s'
  end.

(** [s.replace(a, b)] for one-character [a] and [b] *)
Fixpoint replace_char (a b : ascii) (s : string) : string :=
  match s with
  | EmptyString => EmptyString
  | String c s' => String (if decide (c = a) then b else c) (replace_char a b s')
  end.

(** [s.replace(a, "")] for a one-character [a] *)
Fixpoint remove_char (a : ascii) (s : string) : string :=
  match s with
  | EmptyString => EmptyString
  | String c s' => if decide (c = a) then remove_char a s' else String c (remove_char a s')
  end.

(** [s.split(sep)] for a one-character [sep]; never the empty list. *)
Fixpoint split (sep : ascii) (s : string) : list string :=
  match s with
  | EmptyString => [EmptyString]
  | String c s' =>
      if decide (c = sep) then EmptyString :: split sep s'
      else match split sep s' with
           | [] => [String c EmptyString]
           | h :: t => String c h :: t
           end
  end.

Fixpoint lstrip (s : string) : string :=
  match s with
  | EmptyString => EmptyString
  | String c s' => if isspace c then lstrip s' else s
  end.

Fixpoint rstrip (s : string) : string :=
  match s with
  | EmptyString => EmptyString
  | String c s' =>
      match rstrip s' with
      | EmptyString => if isspace c then EmptyString else String c EmptyString
      | r => String c r
      end
  end.

(** [s.strip()] *)
Definition strip (s : string) : string := rstrip (lstrip s).

(** [sep.join(l)] *)
Fixpoint join (sep : string) (l : list string) : string :=
  match l with
  | [] => EmptyString
  | [x] => x
  | x :: l' => x +:+ sep +:+ join sep l'
  end.

(** the generator expression ["".join(c for c in s if keep(c))] *)
Fixpoint filter_chars (keep : ascii -> bool) (s : string) : string :=
  match s with
  | EmptyString => EmptyString
  | String c s' => if keep c then String c (filter_chars keep s') else filter_chars keep s'
  end.

End PyStr.

(** ** [pathlib.PurePosixPath] *)

Inductive Root := NoRoot | Slash | DoubleSlash.

#[global] Instance Root_eq_dec : EqDecision Root.
Proof. solve_decision. Defined.

Record Path := mkPath { root : Root; parts : list string }.

#[global] Instance Path_eq_dec : EqDecision Path.
Proof. solve_decision. Defined.

Module PurePath.

(** one leading slash, or three and more, is the root [/]; exactly two is [//] *)
Definition root_of (s : string) : Root :=
  if PyStr.startswith "///" s then Slash
  else if PyStr.startswith "//" s then DoubleSlash
  else if PyStr.startswith "/" s then Slash
  else NoRoot.

Definition is_component (p : string) : bool :=
  negb (bool_decide (p = "")) && negb (bool_decide (p = ".")).

(** [Path(s)]: empty and [.] components are dropped, [..] is kept. *)
Definition Path_of (s : string) : Path :=
  mkPath (root_of s) (List.filter is_component (PyStr.split "/" s)).

(** [a / b] for a path [b] *)
Definition joinpath (a b : Path) : Path :=
  match root b with
  | NoRoot => mkPath (root a) (parts a ++ parts b)
  | _ => b
  end.

(** [a / s] for a string [s] *)
Definition join (a : Path) (s : string) : Path := joinpath a (Path_of s).

(** [p.name] *)
Definition name (p : Path) : string := List.last (parts p) "".

(** [p.parent] *)
Definition parent (p : Path) : Path := mkPath (root p) (List.removelast (parts p)).

(** [p.relative_to(other)] succeeds ([true]) or raises [ValueError] ([false]):
    same anchor, and the components of [other] lead those of [p]. *)
Definition relative_to (p other : Path) : bool :=
  bool_decide (root p = root other) && bool_decide (parts other `prefix_of` parts p).

Definition root_str (r : Root) : string :=
  match r with NoRoot => "" | Slash => "/" | DoubleSlash => "//" end.

(** [str(p)] *)
Definition to_str (p : Path) : string :=
  match root p, parts p with
  | NoRoot, [] => "."
  | r, ps => root_str r +:+ PyStr.join "/" ps
  end.

(** [os.path.isabs(s)] *)
Definition isabs (s : string) : bool := PyStr.startswith "/" s.

(** [Path.resolve()] on a file system without symbolic links, for a process
    whose working directory is [cwd]: the path is made absolute and [..]
    steps are taken lexically ([..] at the root stays at the root).
    [normalize_step] keeps the components seen so far, last one first. *)
Definition normalize_step (stack : list string) (p : string) : list string :=
  if bool_decide (p = "..") then List.tl stack else p :: stack.

Definition normalize (ps : list string) : list string :=
  List.rev (List.fold_left normalize_step ps []).

Definition lexical_resolve (cwd : list string) (p : Path) : Path :=
  match root p with
  | NoRoot => mkPath Slash (normalize (cwd ++ parts p))
  | r => mkPath r (normalize (parts p))
  end.

End PurePath.

Notation "a </> s" := (PurePath.join a s) (at level 40, left associativity).

(** ** [noxrunner/security/path_sanitizer.py] *)

Module PathSanitizer.
Section WithResolve.

Variable resolve : Path -> Path.

(** The loop over [path_parts] of [sanitize]: [None] is the early
    [return workspace], [Some l] the final [normalized_parts]. *)
Fixpoint normalize_parts (path_parts normalized_parts : list string)
  : option (list string) :=
  match path_parts with
  | [] => Some normalized_parts
  | part :: rest =>
      if bool_decide (part = ".") || bool_decide (part = "") then
        normalize_parts rest normalized_parts
      else if bool_decide (part = "..") then None
      else if PyStr.contains ".." part then
        if bool_decide
             (PyStr.strip (PyStr.remove_char "/" (PyStr.remove_char "." part)) = "")
        then None
        else normalize_parts rest (normalized_parts ++ [part])
      else normalize_parts rest (normalized_parts ++ [part])
  end.

Definition sanitize (path : string) (sandbox_path : Path) (workspace_name : string)
  : Path :=
  let sandbox_resolved := resolve sandbox_path in
  let workspace := sandbox_resolved </> workspace_name in
  if PurePath.isabs path then
    let resolved := resolve (PurePath.Path_of path) in
    if PurePath.relative_to resolved sandbox_resolved then resolved else workspace
  else
    let path_parts := PyStr.split "/" (PyStr.replace_char "\" "/" path) in
    match normalize_parts path_parts [] with
    | None => workspace
    | Some [] => workspace
    | Some normalized_parts =>
        let resolved := List.fold_left PurePath.join normalized_parts workspace in
        if PurePath.relative_to resolved sandbox_resolved then resolved else workspace
    end.


Definition sanitize_filename (filename : string) : string :=
  PurePath.name (PurePath.Path_of filename).

End WithResolve.
End PathSanitizer.

(** ** Exceptions, and a state-and-exception monad for the effectful code *)

Inductive Exn :=
  | FileExistsError
  | FileNotFoundError
  | NotADirectoryError
  | IsADirectoryError
  | ValueError (msg : string)
  | KeyError (key : string)
  | ReadError
  | FilterError.

(** A computation runs on a state [S] and either raises or returns; the
    state it leaves behind is kept in both cases, as a Python object keeps
    the mutations done before an exception. *)
Definition M (S A : Type) : Type := S -> (Exn + A) * S.

Definition ret {S A} (a : A) : M S A := fun s => (inr a, s).

Definition raise {S A} (e : Exn) : M S A := fun s => (inl e, s).

Definition bind {S A B} (m : M S A) (k : A -> M S B) : M S B :=
  fun s => match m s with
           | (inl e, s') => (inl e, s')
           | (inr a, s') => k a s'
           end.

Definition gets {S A} (f : S -> A) : M S A := fun s => (inr (f s), s).

Definition modify {S} (f : S -> S) : M S unit := fun s => (inr tt, f s).

(** [try: body finally: fin] *)
Definition try_finally {S A} (body : M S A) (fin : M S unit) : M S A :=
  fun s => match body s with
           | (r, s') => match fin s' with
                        | (inl e, s'') => (inl e, s'')
                        | (inr _, s'') => (r, s'')
                        end
           end.

Declare Scope py_scope.
Delimit Scope py_scope with py.
Notation "x <- m ;; k" := (bind m (fun x => k))
  (at level 100, m at next level, right associativity) : py_scope.
Notation "m ;;; k" := (bind m (fun _ => k))
  (at level 100, right associativity) : py_scope.

(** ** The file system: a tree of directories and regular files

    Keys are the components of an absolute, resolved path; the root
    directory [[]] always exists. *)

Module FS.

Inductive Node := Dir | File (content : list Byte.byte).

#[global] Instance byte_eq_dec : EqDecision Byte.byte := Byte.byte_eq_dec.

#[global] Instance Node_eq_dec : EqDecision Node.
Proof. solve_decision. Defined.

Definition node_at (fs : gmap (list string) Node) (k : list string) : option Node :=
  match k with
  | [] => Some Dir
  | _ => fs !! k
  end.

Definition is_dir (fs : gmap (list string) Node) (k : list string) : bool :=
  match node_at fs k with Some Dir => true | _ => false end.

(** [Path.exists()] *)
Definition exists_ (fs : gmap (list string) Node) (k : list string) : bool :=
  match node_at fs k with Some _ => true | None => false end.

(** [Path.mkdir(parents=True, exist_ok=True)]: walking down from the root,
    every missing directory is created; a regular file on the way raises. *)
Fixpoint mkdir_walk (above below : list string) (fs : gmap (list string) Node)
  : Exn + gmap (list string) Node :=
  match below with
  | [] => inr fs
  | c :: below' =>
      let k := above ++ [c] in
      match fs !! k with
      | Some Dir => mkdir_walk k below' fs
      | Some (File _) =>
          inl (match below' with [] => FileExistsError | _ => NotADirectoryError end)
      | None => mkdir_walk k below' (<[k := Dir]> fs)
      end
  end.

Definition mkdir_parents (k : list string) (fs : gmap (list string) Node)
  : Exn + gmap (list string) Node :=
  mkdir_walk [] k fs.

(** [Path.mkdir(exist_ok=True)]: the parent has to be there. *)
Definition mkdir_exist_ok (k : list string) (fs : gmap (list string) Node)
  : Exn + gmap (list string) Node :=
  match node_at fs (removelast k) with
  | None => inl FileNotFoundError
  | Some (File _) => inl NotADirectoryError
  | Some Dir =>
      match node_at fs k with
      | Some Dir => inr fs
      | Some (File _) => inl FileExistsError
      | None => inr (<[k := Dir]> fs)
      end
  end.

(** [open(k, "wb").write(content)] *)
Definition write_file (k : list string) (content : list Byte.byte)
  (fs : gmap (list string) Node) : Exn + gmap (list string) Node :=
  match node_at fs (removelast k) with
  | None => inl FileNotFoundError
  | Some (File _) => inl NotADirectoryError
  | Some Dir =>
      match node_at fs k with
      | Some Dir => inl IsADirectoryError
      | _ => inr (<[k := File content]> fs)
      end
  end.


(** [fs'] has the same regular files as [fs] outside the tree rooted at [D]. *)
Definition same_files_outside (D : list string) (fs fs' : gmap (list string) Node) : Prop :=
  ∀ k c, ¬ (D `prefix_of` k) -> fs' !! k = Some (File c) <-> fs !! k = Some (File c).

End FS.

(** A fallible step of the file system as a computation on it. *)
Definition fs_step (f : gmap (list string) FS.Node -> Exn + gmap (list string) FS.Node)
  : M (gmap (list string) FS.Node) unit :=
  fun fs => match f fs with
            | inl e => (inl e, fs)
            | inr fs' => (inr tt, fs')
            end.

(** ** [noxrunner/fileops/tar_handler.py]

    The [tarfile] codec is library code: an archive is represented by what
    [tarfile.open(...).getmembers()] yields from it, the members in order,
    each with its payload; [NoData] is the empty byte string.
    [TarFile.extract] is a parameter [tar_extract]; [mem_extract] below is
    its instance for regular files on a file system without links. *)

Module TarHandler.

Inductive TarType := REGTYPE | DIRTYPE | SYMTYPE | LNKTYPE | SPECIALTYPE.

#[global] Instance TarType_eq_dec : EqDecision TarType.
Proof. solve_decision. Defined.

Record TarInfo := mkTarInfo {
    name : string;
    size : nat;
    type : TarType;
    linkname : string;
    data : list Byte.byte
  }.

Definition isfile (m : TarInfo) : bool := bool_decide (type m = REGTYPE).

Inductive TarData := NoData | Archive (members : list TarInfo).

(** file content as [create_tar] takes it: [str] or [bytes] *)
Inductive Content := Str (s : string) | Bytes (b : list Byte.byte).

Definition content_bytes (content : Content) : list Byte.byte :=
  match content with
  | Str s => list_byte_of_string s
  | Bytes b => b
  end.


(** [for part in s.replace("\\", "/").split("/"): if part == "..": return False] *)
Definition has_parent_ref (s : string) : bool :=
  List.existsb (fun part => bool_decide (part = ".."))
               (PyStr.split "/" (PyStr.replace_char "\" "/" s)).




(** a member name that is not absolute and has no [..] segment *)
Definition safe_name (member : TarInfo) : bool :=
  negb (PyStr.startswith "/" (name member)) && negb (has_parent_ref (name member)).

Section WithOS.

Variable resolve : Path -> Path.
  (** [sys.version_info >= (3, 12)] *)
Variable py312 : bool.
  (** [tar.extract(member, dest, filter="data")] when the flag is set,
      [tar.extract(member, dest)] otherwise *)
Variable tar_extract : bool -> TarInfo -> Path -> M (gmap (list string) FS.Node) unit.




End WithOS.

(** [name.lstrip("/")] *)
Fixpoint lstrip_slash (s : string) : string :=
  match s with
  | String "/" s' => lstrip_slash s'
  | _ => s
  end.

(** [TarFile.extract] for a regular member on a file system without links.
    With the [data] filter, leading slashes are stripped from the name and
    a destination outside [dest] raises; then the missing upper
    directories are made and the payload is written.  Links and special
    files are not supported by this file system: they raise. *)
Definition mem_extract (resolve : Path -> Path) (data_filter : bool)
  (member : TarInfo) (dest : Path) : M (gmap (list string) FS.Node) unit :=
  match type member with
  | REGTYPE =>
      let nm := if data_filter then lstrip_slash (name member) else name member in
      if data_filter &&
         negb (PurePath.relative_to (resolve (resolve dest </> nm)) (resolve dest))
      then raise FilterError
      else
        let target := resolve (dest </> nm) in
        (fs_step (fun fs => if FS.exists_ fs (removelast (parts target)) then inr fs
                            else FS.mkdir_parents (removelast (parts target)) fs);;;
         fs_step (FS.write_file (parts target) (data member)))%py
  | _ => raise (ValueError "unsupported member type")
  end.

End TarHandler.

(** ** [noxrunner/local_sandbox.py] *)

Module LocalSandbox.

Definition _ALLOWED_COMMANDS : gset string :=
  list_to_set
    [ "echo"; "cat"; "ls"; "pwd"; "head"; "tail"; "grep"; "wc"; "sort";
      "python"; "python3"; "python2"; "node"; "bash"; "sh"; "zsh"; "test";
      "["; "true"; "false"; "which"; "type"; "env"; "printenv"; "mkdir";
      "touch"; "cp"; "mv"; "ln"; "readlink"; "stat"; "file"; "find"; "xargs";
      "sed"; "awk"; "cut"; "tr"; "uniq"; "diff"; "cmp"; "tar"; "gzip";
      "gunzip"; "zip"; "unzip" ].

Definition _BLOCKED_COMMANDS : gset string :=
  list_to_set
    [ "rm"; "rmdir"; "unlink"; "del"; "format"; "mkfs"; "dd"; "fdisk";
      "shutdown"; "reboot"; "halt"; "poweroff"; "init"; "killall"; "sudo";
      "su"; "chmod"; "chown"; "chgrp"; "mount"; "umount" ].

(** one entry of [self._sandboxes]; times are microseconds since the epoch *)
Record SandboxInfo := mkSandboxInfo {
  path : Path;
  created_at : Z;
  expires_at : Z;
  ttl_seconds : Z
}.

(** the dictionary [exec] returns *)
Record ExecResult := mkExecResult {
  exitCode : Z;
  stdout : string;
  stderr : string;
  durationMs : Z
}.

(** the dictionary [create_sandbox] returns; [expiresAt] is kept as the
    time stamp, its ISO rendering is not modelled *)
Record CreateResult := mkCreateResult {
  podName : string;
  expiresAt : Z
}.

(** how [subprocess.run] ends *)
Inductive RunOutcome :=
  | Completed (returncode : Z) (out err : string)
  | TimeoutExpired
  | FileNotFound
  | OtherError (msg : string).

(** one call of [subprocess.run]: argument vector, working directory,
    environment and timeout *)
Record Spawn := mkSpawn {
  spawn_cmd : list string;
  spawn_cwd : Path;
  spawn_env : gmap string string;
  spawn_timeout : Z
}.

(** The backend object and the part of the process and machine it acts on:
    the registry [self._sandboxes], the file system, the working directory
    of the process, the number of clock readings taken, the lines printed
    on [sys.stderr], and the processes spawned. *)
Record World := mkWorld {
  _sandboxes : gmap string SandboxInfo;
  fs : gmap (list string) FS.Node;
  cwd : list string;
  clock_reads : nat;
  sys_stderr : list string;
  spawned : list Spawn
}.

Definition set_sandboxes (f : gmap string SandboxInfo -> gmap string SandboxInfo)
  (w : World) : World :=
  mkWorld (f (_sandboxes w)) (fs w) (cwd w) (clock_reads w) (sys_stderr w) (spawned w).

Definition set_fs (fs' : gmap (list string) FS.Node) (w : World) : World :=
  mkWorld (_sandboxes w) fs' (cwd w) (clock_reads w) (sys_stderr w) (spawned w).

Definition set_cwd (k : list string) (w : World) : World :=
  mkWorld (_sandboxes w) (fs w) k (clock_reads w) (sys_stderr w) (spawned w).

(** a computation on the file system, run in the world *)
Definition on_fs {A} (m : M (gmap (list string) FS.Node) A) : M World A :=
  fun w => match m (fs w) with (r, fs') => (r, set_fs fs' w) end.

(** [Path.resolve()] in the world: no symbolic links, relative paths start
    at the working directory of the process *)
Definition resolve_in (w : World) : Path -> Path := PurePath.lexical_resolve (cwd w).

Definition ESC : string := String (ascii_of_nat 27) "".

Definition print (line : string) : M World unit :=
  modify (fun w => mkWorld (_sandboxes w) (fs w) (cwd w) (clock_reads w)
                           (sys_stderr w ++ [line])%list (spawned w)).

Definition _print_warning (message : string) (critical : option string)
  : M World unit :=
  let critical_set :=
    match critical with Some c => negb (bool_decide (c = "")) | None => false end in
  let warning_prefix :=
    if critical_set
    then ESC +:+ "[91m" +:+ ESC +:+ "[1m🚨 CRITICAL WARNING" +:+ ESC +:+ "[0m" +:+ ESC +:+ "[91m"
    else ESC +:+ "[91m" +:+ ESC +:+ "[1m⚠️  WARNING" +:+ ESC +:+ "[0m" +:+ ESC +:+ "[91m" in
  (print "";;;
   print (warning_prefix +:+ ": " +:+ message +:+ ESC +:+ "[0m");;;
   (if critical_set
    then print (ESC +:+ "[91m" +:+ ESC +:+ "[1m" +:+ default "" critical +:+ ESC +:+ "[0m")
    else ret tt);;;
   print "")%py.

Definition _validate_command (cmd : list string) : bool :=
  match cmd with
  | [] => false
  | cmd0 :: _ =>
      let command := PyStr.lower cmd0 in
      if bool_decide (command ∈ _BLOCKED_COMMANDS) then false
      else true
  end.

(** The policy in the words of the specification, to compare
    [_validate_command] with: a non-empty vector whose first element,
    lower-cased, is not in the deny-set and is in the allow-set. *)
Definition spec_validate (argv : list string) : bool :=
  match argv with
  | [] => false
  | first :: _ =>
      negb (bool_decide (PyStr.lower first ∈ _BLOCKED_COMMANDS))
      && bool_decide (PyStr.lower first ∈ _ALLOWED_COMMANDS)
  end.

Definition _sanitize_path (resolve : Path -> Path) (path : string) (sandbox_path : Path)
  : Path :=
  let sandbox_resolved := resolve sandbox_path in
  let workspace := sandbox_resolved </> "workspace" in
  if PurePath.isabs path then
    let resolved := resolve (PurePath.Path_of path) in
    if PurePath.relative_to resolved sandbox_resolved then resolved else workspace
  else
    let resolved := resolve (workspace </> path) in
    if PurePath.relative_to resolved sandbox_resolved then resolved else workspace.

(** the local variable [safe_id] of [_get_sandbox_path] *)
Definition safe_id (session_id : string) : string :=
  let safe_id :=
    PyStr.filter_chars
      (fun c => PyStr.isalnum c || bool_decide (c = "-"%char) || bool_decide (c = "_"%char))
      session_id in
  if bool_decide (safe_id = "") then "default" else safe_id.

(** A component of the world that updates of the file system, of the
    registry, of the clock and of [sys.stderr] do not touch. *)
Definition frame_field {X} (proj : World -> X) : Prop :=
  (∀ w fs', proj (set_fs fs' w) = proj w) ∧
  (∀ w f, proj (set_sandboxes f w) = proj w) ∧
  (∀ w n l, proj (mkWorld (_sandboxes w) (fs w) (cwd w) n l (spawned w)) = proj w).

(** A computation leaves a component of the world as it found it. *)
Definition unchanged {X A} (proj : World -> X) (m : M World A) : Prop :=
  ∀ w, proj (m w).2 = proj w.

Section Backend.

(** [self.base_dir] *)
Variable base_dir : Path.
(** [datetime.now(timezone.utc)] at the n-th reading of the clock *)
Variable utc_now : nat -> Z.
(** [os.environ] *)
Variable environ : gmap string string.
(** The spawned process: given the call and the file system it starts on,
    how the call ends, the elapsed wall-clock time in milliseconds as
    [exec] computes it, and the file system it leaves. *)
Variable subprocess_run :
  Spawn -> gmap (list string) FS.Node -> RunOutcome * Z * gmap (list string) FS.Node.

Definition _get_sandbox_path (session_id : string) : Path :=
  base_dir </> ("noxrunner_sandbox_" +:+ safe_id session_id).

Definition mkdir_parents (p : Path) : M World unit :=
  fun w => on_fs (fs_step (FS.mkdir_parents (parts (resolve_in w p)))) w.

Definition mkdir_exist_ok (p : Path) : M World unit :=
  fun w => on_fs (fs_step (FS.mkdir_exist_ok (parts (resolve_in w p)))) w.

Definition _ensure_sandbox (session_id : string) : M World Path :=
  let sandbox_path := _get_sandbox_path session_id in
  (mkdir_parents sandbox_path;;;
   let workspace := sandbox_path </> "workspace" in
   mkdir_exist_ok workspace;;;
   ret sandbox_path)%py.

Definition datetime_now : M World Z :=
  fun w => (inr (utc_now (clock_reads w)),
            mkWorld (_sandboxes w) (fs w) (cwd w) (S (clock_reads w))
                    (sys_stderr w) (spawned w)).

(** [timedelta(seconds=n)] *)
Definition timedelta (seconds : Z) : Z := (seconds * 1000000)%Z.

Definition create_sandbox (session_id : string) (ttl_seconds : Z)
  : M World CreateResult :=
  (sandbox_path <- _ensure_sandbox session_id;;
   now1 <- datetime_now;;
   let expires_at := (now1 + timedelta ttl_seconds)%Z in
   now2 <- datetime_now;;
   modify (set_sandboxes
             (insert session_id (mkSandboxInfo sandbox_path now2 expires_at ttl_seconds)));;;
   ret (mkCreateResult ("local-" +:+ session_id) expires_at))%py.

(** [if session_id not in self._sandboxes: self.create_sandbox(session_id)] *)
Definition create_if_missing (session_id : string) : M World unit :=
  (known <- gets (fun w => bool_decide (is_Some (_sandboxes w !! session_id)));;
   if (known : bool) then ret tt
   else (_ <- create_sandbox session_id 900;; ret tt))%py.

(** [self._sandboxes[session_id]] *)
Definition get_sandbox (session_id : string) : M World SandboxInfo :=
  fun w => match _sandboxes w !! session_id with
           | Some sandbox => (inr sandbox, w)
           | None => (inl (KeyError session_id), w)
           end.


(** [os.getcwd()] *)
Definition getcwd : M World Path :=
  fun w => if FS.is_dir (fs w) (cwd w) then (inr (mkPath Slash (cwd w)), w)
           else (inl FileNotFoundError, w).

(** [os.chdir(str(p))] *)
Definition chdir (p : Path) : M World unit :=
  fun w => let k := parts (resolve_in w p) in
           match FS.node_at (fs w) k with
           | Some FS.Dir => (inr tt, set_cwd k w)
           | Some (FS.File _) => (inl NotADirectoryError, w)
           | None => (inl FileNotFoundError, w)
           end.

(** the warning [exec] prints on every call *)
Definition exec_warning (cmd : list string) : M World unit :=
  _print_warning
    ("Executing command in LOCAL environment: " +:+ PyStr.join " " cmd)
    (Some "⚠️  This may cause DATA LOSS or SECURITY RISKS! ⚠️").

(** [str(n)] for an integer *)
Definition str_of_int (n : Z) : string := NilZero.string_of_int (Z.to_int n).

(** the call of [subprocess.run], with the clock readings around it *)
Definition run_subprocess (call : Spawn) : M World (RunOutcome * Z) :=
  fun w => match subprocess_run call (fs w) with
           | (outcome, elapsed_ms, fs') =>
               (inr (outcome, elapsed_ms),
                mkWorld (_sandboxes w) fs' (cwd w) (clock_reads w) (sys_stderr w)
                        (spawned w ++ [call])%list)
           end.

Definition exec (session_id : string) (cmd : list string) (workdir : string)
  (env : option (gmap string string)) (timeout_seconds : Z) : M World ExecResult :=
  (exec_warning cmd;;;
   create_if_missing session_id;;;
   sandbox <- get_sandbox session_id;;
   let sandbox_path := path sandbox in
   if negb (_validate_command cmd) then
     ret (mkExecResult 1 "" ("Command not allowed: " +:+ hd "empty" cmd) 0)
   else
     resolve <- gets resolve_in;;
     let workdir_path := _sanitize_path resolve workdir sandbox_path in
     mkdir_parents workdir_path;;;
     let exec_env := match env with
                     | Some env => env ∪ environ
                     | None => environ
                     end in
     original_cwd <- getcwd;;
     try_finally
       (chdir workdir_path;;;
        r <- run_subprocess (mkSpawn cmd workdir_path exec_env timeout_seconds);;
        let '(outcome, duration_ms) := r in
        ret (match outcome with
             | Completed returncode out err =>
                 mkExecResult returncode out err duration_ms
             | TimeoutExpired =>
                 mkExecResult 124 ""
                   ("Command timed out after " +:+ str_of_int timeout_seconds +:+ " seconds")
                   duration_ms
             | FileNotFound =>
                 mkExecResult 127 "" ("Command not found: " +:+ hd "" cmd) duration_ms
             | OtherError msg =>
                 mkExecResult 1 "" ("Execution error: " +:+ msg) duration_ms
             end))
       (chdir original_cwd))%py.

Fixpoint upload_each (files : list (string * TarHandler.Content)) (dest_path : Path)
  : M World unit :=
  match files with
  | [] => ret tt
  | (filepath, content) :: rest =>
      (let safe_path := PurePath.name (PurePath.Path_of filepath) in
       let target := dest_path </> safe_path in
       (fun w => on_fs (fs_step (FS.write_file (parts (resolve_in w target))
                                               (TarHandler.content_bytes content))) w);;;
       upload_each rest dest_path)%py
  end.

Definition upload_files (session_id : string)
  (files : list (string * TarHandler.Content)) (dest : string) : M World bool :=
  (create_if_missing session_id;;;
   sandbox <- get_sandbox session_id;;
   let sandbox_path := path sandbox in
   resolve <- gets resolve_in;;
   let dest_path := _sanitize_path resolve dest sandbox_path in
   mkdir_parents dest_path;;;
   upload_each files dest_path;;;
   ret true)%py.

Fixpoint upload_members (members : list TarHandler.TarInfo)
  (dest_path sandbox_path : Path) : M World unit :=
  match members with
  | [] => ret tt
  | member :: rest =>
      (resolve <- gets resolve_in;;
       let safe_name := PurePath.name (PurePath.Path_of (TarHandler.name member)) in
       let target := dest_path </> safe_name in
       if negb (PurePath.relative_to (resolve target) (resolve sandbox_path)) then
         upload_members rest dest_path sandbox_path
       else
         (if TarHandler.isfile member
          then on_fs (TarHandler.mem_extract resolve false member dest_path)
          else ret tt);;;
         upload_members rest dest_path sandbox_path)%py
  end.

Definition upload_tar (session_id : string) (tar_data : TarHandler.TarData)
  (dest : string) : M World bool :=
  (create_if_missing session_id;;;
   sandbox <- get_sandbox session_id;;
   let sandbox_path := path sandbox in
   resolve <- gets resolve_in;;
   let dest_path := _sanitize_path resolve dest sandbox_path in
   mkdir_parents dest_path;;;
   match tar_data with
   | TarHandler.NoData => raise ReadError
   | TarHandler.Archive members =>
       upload_members members dest_path sandbox_path;;;
       ret true
   end)%py.


Definition wait_for_pod_ready (session_id : string) : M World bool :=
  (create_if_missing session_id;;;
   ret true)%py.




End Backend.




End LocalSandbox.

(** * Properties *)

(** ** Strings and paths *)

Section StringFacts.

Lemma startswith_cons_ne (a b : ascii) (s : string) :
  a ≠ b -> PyStr.startswith (String a "") (String b s) = false.
Proof. intros Hne. simpl. destruct (decide (a = b)); congruence. Qed.

(** No piece of [split sep s] holds the separator. *)
Lemma split_no_sep (sep : ascii) (s : string) :
  Forall (fun seg => PyStr.contains (String sep "") seg = false) (PyStr.split sep s).
Proof.
  induction s as [|c s IH]; simpl.
  - by constructor.
  - destruct (decide (c = sep)) as [->|Hne].
    + by constructor.
    + destruct (PyStr.split sep s) as [|h t].
      * constructor; [|done]. simpl.
        destruct (decide (sep = c)); [congruence | done].
      * inversion IH as [|? ? Hh Ht]; subst. constructor; [|done].
        simpl. destruct (decide (sep = c)); [congruence|].
        simpl in Hh. exact Hh.
Qed.

Lemma split_nonempty (sep : ascii) (s : string) : PyStr.split sep s ≠ [].
Proof.
  destruct s as [|c s]; simpl; [done|].
  destruct (decide (c = sep)); [done|]. by destruct (PyStr.split sep s).
Qed.

(** A string without the separator is its own single piece. *)
Lemma split_without_sep (sep : ascii) (s : string) :
  PyStr.contains (String sep "") s = false -> PyStr.split sep s = [s].
Proof.
  induction s as [|c s IH]; simpl; [done|].
  destruct (decide (sep = c)) as [->|Hne]; [done|].
  intros H. destruct (decide (c = sep)); [congruence|].
  simpl in H. rewrite IH; [done|].
  destruct s; simpl in *; [done|]. exact H.
Qed.

Lemma contains_slash_startswith (s : string) :
  PyStr.contains "/" s = false -> PyStr.startswith "/" s = false.
Proof. destruct s; simpl; [done|]. by intros [? ?]%orb_false_elim. Qed.

Lemma last_in {A} (l : list A) (d : A) : l ≠ [] -> In (List.last l d) l.
Proof.
  induction l as [|x l IH]; [done|]. intros _. destruct l as [|y l].
  - by left.
  - right. apply IH. done.
Qed.

End StringFacts.

Section PathFacts.

Lemma root_of_no_slash (s : string) :
  PyStr.startswith "/" s = false -> PurePath.root_of s = NoRoot.
Proof.
  intros H. unfold PurePath.root_of.
  destruct s as [|c s]; [done|]. simpl in *.
  destruct (decide ("/"%char = c)); [done|]. done.
Qed.

(** A string that is one component parses to the one-component relative path. *)
Lemma Path_of_component (s : string) :
  PyStr.contains "/" s = false -> PurePath.is_component s = true ->
  PurePath.Path_of s = mkPath NoRoot [s].
Proof.
  intros Hns Hc. unfold PurePath.Path_of.
  rewrite root_of_no_slash by by apply contains_slash_startswith.
  rewrite split_without_sep by done. simpl. by rewrite Hc.
Qed.

Lemma join_component (a : Path) (s : string) :
  PyStr.contains "/" s = false -> PurePath.is_component s = true ->
  a </> s = mkPath (root a) (parts a ++ [s]).
Proof.
  intros Hns Hc. unfold PurePath.join. by rewrite Path_of_component.
Qed.


Lemma relative_to_app (r : Root) (ps qs : list string) :
  PurePath.relative_to (mkPath r (ps ++ qs)) (mkPath r ps) = true.
Proof.
  unfold PurePath.relative_to. simpl.
  rewrite bool_decide_eq_true_2 by done.
  rewrite bool_decide_eq_true_2; [done|]. by apply prefix_app_r.
Qed.

Lemma relative_to_extend (p : Path) (qs : list string) :
  PurePath.relative_to (mkPath (root p) (parts p ++ qs)) p = true.
Proof. destruct p as [r ps]. apply relative_to_app. Qed.

End PathFacts.

Section CharFacts.

Local Abbreviation chars := list_ascii_of_string.



Lemma remove_char_all (a : ascii) (s : string) :
  Forall (fun c => c = a) (chars s) -> PyStr.remove_char a s = "".
Proof.
  induction s as [|b s IH]; simpl; [done|].
  intros H. inversion H; subst. destruct (decide (a = a)); [|done]. by apply IH.
Qed.








End CharFacts.

Section SanitizeLoop.

(** What makes the loop of [sanitize] give up on a segment. *)
Lemma normalize_parts_parent_ref (path_parts acc : list string) :
  In ".." path_parts -> PathSanitizer.normalize_parts path_parts acc = None.
Proof.
  revert acc. induction path_parts as [|part rest IH]; intros acc Hin; [done|].
  simpl. destruct Hin as [->|Hin]; [done|].
  repeat case_match; auto.
Qed.



End SanitizeLoop.

(** ** The path sanitizer *)

(** C3, as the code has it.  A path with a [..] segment (the segments are
    those between slashes of either style) is sent to the workspace root
    when it is relative; when it is absolute, [sanitize] resolves it and
    returns the resolved path if that lies under the sandbox root, the
    workspace root otherwise.  [sanitize] is a total function: it always
    returns a path. *)
Theorem sanitize_parent_ref (resolve : Path -> Path) (path : string)
  (sandbox_path : Path) (workspace_name : string) :
  In ".." (PyStr.split "/" (PyStr.replace_char "\" "/" path)) ->
  PathSanitizer.sanitize resolve path sandbox_path workspace_name
  = if PurePath.isabs path then
      if PurePath.relative_to (resolve (PurePath.Path_of path)) (resolve sandbox_path)
      then resolve (PurePath.Path_of path)
      else resolve sandbox_path </> workspace_name
    else resolve sandbox_path </> workspace_name.
Proof.
  intros Hin. unfold PathSanitizer.sanitize.
  destruct (PurePath.isabs path); [done|].
  by rewrite normalize_parts_parent_ref.
Qed.

Lemma sanitize_parent_ref_witness :
  PathSanitizer.sanitize (PurePath.lexical_resolve ["home"; "u"]) "../../etc/passwd"
    (mkPath Slash ["tmp"; "sb"]) "workspace"
  = mkPath Slash ["tmp"; "sb"; "workspace"].
Proof.
  rewrite (sanitize_parent_ref (PurePath.lexical_resolve ["home"; "u"]) "../../etc/passwd").
  - reflexivity.
  - simpl. auto.
Defined.

(** C3, as the claim words it, fails for an absolute input: the path
    [/tmp/sb/workspace/a/../b] has a [..] segment, and under the sandbox
    root [/tmp/sb] it is sent to [/tmp/sb/workspace/b], not to the
    workspace root. *)
Lemma sanitize_absolute_parent_ref_kept :
  In ".." (PyStr.split "/" (PyStr.replace_char "\" "/" "/tmp/sb/workspace/a/../b")) ∧
  PathSanitizer.sanitize (PurePath.lexical_resolve []) "/tmp/sb/workspace/a/../b"
    (mkPath Slash ["tmp"; "sb"]) "workspace"
  = mkPath Slash ["tmp"; "sb"; "workspace"; "b"] ∧
  PathSanitizer.sanitize (PurePath.lexical_resolve []) "/tmp/sb/workspace/a/../b"
    (mkPath Slash ["tmp"; "sb"]) "workspace"
  ≠ PurePath.lexical_resolve [] (mkPath Slash ["tmp"; "sb"]) </> "workspace".
Proof.
  split; [|split].
  - simpl. auto 10.
  - reflexivity.
  - vm_compute. discriminate.
Qed.

(** [sanitize_filename] never returns a string with a slash in it. *)
Lemma sanitize_filename_no_separator (filename : string) :
  PyStr.contains "/" (PathSanitizer.sanitize_filename filename) = false.
Proof.
  unfold PathSanitizer.sanitize_filename, PurePath.name, PurePath.Path_of. simpl.
  set (l := List.filter PurePath.is_component (PyStr.split "/" filename)).
  destruct (decide (l = [])) as [->|Hne]; [done|].
  pose proof (last_in l "" Hne) as Hin.
  apply filter_In in Hin as [Hin _].
  pose proof (split_no_sep "/" filename) as Hall.
  rewrite Forall_forall in Hall. apply Hall. by apply list_elem_of_In.
Qed.

(** C4: the code returns the last component of the parsed path, and [pathlib]
    keeps [..] components, so a file name that ends in [..] comes back as
    [..]: the result is a parent reference. *)
Theorem sanitize_filename_parent_ref :
  PathSanitizer.sanitize_filename ".." = ".." ∧
  PathSanitizer.sanitize_filename "uploads/.." = "..".
Proof. split; reflexivity. Qed.




(** ** The command validator *)

(** [_validate_command] accepts exactly the non-empty vectors whose first
    element, lower-cased, is not in the deny-set. *)
Lemma validate_command_iff (cmd : list string) :
  LocalSandbox._validate_command cmd = true
  <-> ∃ first rest, cmd = first :: rest ∧
                    PyStr.lower first ∉ LocalSandbox._BLOCKED_COMMANDS.
Proof.
  unfold LocalSandbox._validate_command. destruct cmd as [|first rest].
  - split; [done|]. by intros (? & ? & ? & _).
  - case_bool_decide as Hb.
    + split; [done|]. intros (? & ? & [= <- <-] & H). done.
    + split; [|done]. intros _. by exists first, rest.
Qed.

(** Whatever the policy of the specification accepts, the code accepts. *)
Lemma spec_validate_implies_validate (argv : list string) :
  LocalSandbox.spec_validate argv = true -> LocalSandbox._validate_command argv = true.
Proof.
  unfold LocalSandbox.spec_validate, LocalSandbox._validate_command.
  destruct argv as [|first rest]; [done|].
  intros [H _]%andb_true_iff. apply negb_true_iff in H. by rewrite H.
Qed.

(** C1: the code consults the deny-set only.  The vector [nmap localhost]
    names a command that is in neither set; the policy of the specification
    rejects it and [_validate_command] accepts it. *)
Theorem validate_command_accepts_unlisted :
  (PyStr.lower "nmap" ∉ LocalSandbox._ALLOWED_COMMANDS) ∧
  LocalSandbox.spec_validate ["nmap"; "localhost"] = false ∧
  LocalSandbox._validate_command ["nmap"; "localhost"] = true.
Proof.
  split; [|split].
  - vm_compute. set_solver.
  - reflexivity.
  - reflexivity.
Qed.

(** ** The monad *)


(** ** The file system *)

Section FSFacts.

Implicit Types fs : gmap (list string) FS.Node.

(** Making directories adds directories where there was nothing, and
    changes nothing else. *)
Lemma mkdir_walk_effect (below above : list string) fs fs' :
  FS.mkdir_walk above below fs = inr fs' ->
  ∀ k, fs' !! k = fs !! k ∨ (fs !! k = None ∧ fs' !! k = Some FS.Dir).
Proof.
  revert above fs. induction below as [|c below IH]; intros above fs H k; simpl in H.
  - injection H as <-. by left.
  - destruct (fs !! (above ++ [c])) as [[|content]|] eqn:Hk.
    + by apply (IH _ _ H).
    + done.
    + destruct (IH _ _ H k) as [Heq|[Hnone Hdir]].
      * destruct (decide (above ++ [c] = k)) as [<-|Hne].
        -- rewrite lookup_insert_eq in Heq. right. done.
        -- rewrite lookup_insert_ne in Heq by done. by left.
      * destruct (decide (above ++ [c] = k)) as [<-|Hne].
        -- by rewrite lookup_insert_eq in Hnone.
        -- rewrite lookup_insert_ne in Hnone by done. by right.
Qed.

Lemma mkdir_parents_files (k : list string) fs fs' :
  FS.mkdir_parents k fs = inr fs' ->
  ∀ k0 c, fs' !! k0 = Some (FS.File c) <-> fs !! k0 = Some (FS.File c).
Proof.
  intros H k0 c. destruct (mkdir_walk_effect _ _ _ _ H k0) as [->|[H1 H2]]; [done|].
  rewrite H1, H2. split; discriminate.
Qed.

Lemma write_file_effect (k : list string) (content : list Byte.byte) fs fs' :
  FS.write_file k content fs = inr fs' -> fs' = <[k := FS.File content]> fs.
Proof.
  unfold FS.write_file. repeat case_match; try discriminate; by intros [= <-].
Qed.

Lemma fs_step_cases (f : gmap (list string) FS.Node -> Exn + gmap (list string) FS.Node)
  fs (r : Exn + unit) fs' :
  fs_step f fs = (r, fs') ->
  (r = inr tt ∧ f fs = inr fs') ∨ (∃ e, r = inl e ∧ f fs = inl e ∧ fs' = fs).
Proof.
  unfold fs_step. destruct (f fs) as [e|fs1]; intros [= <- <-]; [right|left]; eauto.
Qed.

Lemma same_files_outside_refl D fs : FS.same_files_outside D fs fs.
Proof. by intros k c _. Qed.

Lemma same_files_outside_trans D fs1 fs2 fs3 :
  FS.same_files_outside D fs1 fs2 -> FS.same_files_outside D fs2 fs3 ->
  FS.same_files_outside D fs1 fs3.
Proof. intros H1 H2 k c Hk. by rewrite (H2 k c Hk), (H1 k c Hk). Qed.

Lemma mkdir_parents_outside D (k : list string) fs fs' :
  FS.mkdir_parents k fs = inr fs' -> FS.same_files_outside D fs fs'.
Proof. intros H k0 c _. by apply (mkdir_parents_files k). Qed.

Lemma write_file_outside D (k : list string) (content : list Byte.byte) fs fs' :
  D `prefix_of` k -> FS.write_file k content fs = inr fs' -> FS.same_files_outside D fs fs'.
Proof.
  intros HD ->%write_file_effect k0 c Hk0.
  rewrite lookup_insert_ne; [done|]. by intros <-.
Qed.

End FSFacts.

(** ** The tar handler *)

Section TarFacts.

Implicit Types fs : gmap (list string) FS.Node.

Lemma lstrip_slash_id (s : string) :
  PyStr.startswith "/" s = false -> TarHandler.lstrip_slash s = s.
Proof.
  destruct s as [|c s]; [done|]. simpl.
  destruct (decide ("/"%char = c)) as [<-|Hne]; [done|]. intros _.
  destruct c as [[] [] [] [] [] [] [] []]; try done.
Qed.

Lemma relative_to_prefix (p q : Path) :
  PurePath.relative_to p q = true -> parts q `prefix_of` parts p.
Proof.
  unfold PurePath.relative_to. intros [_ H]%andb_true_iff. by apply bool_decide_eq_true in H.
Qed.





End TarFacts.




(** ** The local backend: what each step leaves alone *)

Section Frames.

Import LocalSandbox.

Context {X : Type} (proj : World -> X).

Lemma unchanged_ret {A} (a : A) : unchanged proj (ret a).
Proof. by intros w. Qed.

Lemma unchanged_raise {A} (e : Exn) : unchanged proj (@raise World A e).
Proof. by intros w. Qed.

Lemma unchanged_gets {A} (f : World -> A) : unchanged proj (gets f).
Proof. by intros w. Qed.

Lemma unchanged_bind {A B} (m : M World A) (k : A -> M World B) :
  unchanged proj m -> (∀ a, unchanged proj (k a)) -> unchanged proj (bind m k).
Proof.
  intros Hm Hk w. unfold bind. specialize (Hm w).
  destruct (m w) as [[e|a] w']; simpl in *; [done|]. by rewrite Hk.
Qed.

Lemma unchanged_try_finally {A} (body : M World A) (fin : M World unit) :
  unchanged proj body -> unchanged proj fin -> unchanged proj (try_finally body fin).
Proof.
  intros Hb Hf w. unfold try_finally. specialize (Hb w).
  destruct (body w) as [r w']. specialize (Hf w').
  destruct (fin w') as [[e|[]] w'']; simpl in *; congruence.
Qed.

Lemma unchanged_if {A} (b : bool) (m1 m2 : M World A) :
  unchanged proj m1 -> unchanged proj m2 -> unchanged proj (if b then m1 else m2).
Proof. by destruct b. Qed.

End Frames.

Section RegistryFrames.

Import LocalSandbox.

Variable base_dir : Path.
Variable utc_now : nat -> Z.
Variable environ : gmap string string.
Variable subprocess_run :
  Spawn -> gmap (list string) FS.Node -> RunOutcome * Z * gmap (list string) FS.Node.

Lemma on_fs_registry {A} (m : M (gmap (list string) FS.Node) A) :
  unchanged _sandboxes (on_fs m).
Proof. intros w. unfold on_fs. by destruct (m (fs w)). Qed.

Lemma print_registry (line : string) : unchanged _sandboxes (print line).
Proof. by intros w. Qed.

Lemma print_warning_registry (message : string) (critical : option string) :
  unchanged _sandboxes (_print_warning message critical).
Proof.
  unfold _print_warning.
  repeat (first [apply unchanged_bind; [|intros ?] | apply unchanged_if
                | apply print_registry | apply unchanged_ret]).
Qed.

Lemma mkdir_parents_registry (p : Path) : unchanged _sandboxes (mkdir_parents p).
Proof. intros w. unfold mkdir_parents. apply on_fs_registry. Qed.

Lemma mkdir_exist_ok_registry (p : Path) : unchanged _sandboxes (mkdir_exist_ok p).
Proof. intros w. unfold mkdir_exist_ok. apply on_fs_registry. Qed.

Lemma ensure_sandbox_registry (session_id : string) :
  unchanged _sandboxes (_ensure_sandbox base_dir session_id).
Proof.
  unfold _ensure_sandbox.
  repeat (first [apply unchanged_bind; [|intros ?] | apply mkdir_parents_registry
                | apply mkdir_exist_ok_registry | apply unchanged_ret]).
Qed.

Lemma ensure_sandbox_value (session_id : string) (w w' : World) (p : Path) :
  _ensure_sandbox base_dir session_id w = (inr p, w') ->
  p = _get_sandbox_path base_dir session_id.
Proof.
  unfold _ensure_sandbox, bind.
  destruct (mkdir_parents _ w) as [[e|[]] w1]; [done|].
  destruct (mkdir_exist_ok _ w1) as [[e|[]] w2]; [done|].
  by intros [= <- _].
Qed.

Lemma datetime_now_registry : unchanged _sandboxes (datetime_now utc_now).
Proof. by intros w. Qed.

Lemma getcwd_registry : unchanged _sandboxes getcwd.
Proof. intros w. unfold getcwd. by destruct (FS.is_dir _ _). Qed.

Lemma chdir_registry (p : Path) : unchanged _sandboxes (chdir p).
Proof. intros w. unfold chdir. by repeat case_match. Qed.

Lemma run_subprocess_registry (call : Spawn) :
  unchanged _sandboxes (run_subprocess subprocess_run call).
Proof. intros w. unfold run_subprocess. by destruct (subprocess_run call (fs w)) as [[? ?] ?]. Qed.

Lemma get_sandbox_registry (session_id : string) :
  unchanged _sandboxes (get_sandbox session_id).
Proof. intros w. unfold get_sandbox. by destruct (_sandboxes w !! session_id). Qed.

Lemma upload_each_registry (files : list (string * TarHandler.Content)) (dest_path : Path) :
  unchanged _sandboxes (upload_each files dest_path).
Proof.
  induction files as [|[filepath content] rest IH]; simpl.
  - apply unchanged_ret.
  - apply unchanged_bind; [|done]. intros w. apply on_fs_registry.
Qed.

Lemma upload_members_registry (members : list TarHandler.TarInfo) (dest_path sandbox_path : Path) :
  unchanged _sandboxes (upload_members members dest_path sandbox_path).
Proof.
  induction members as [|member rest IH]; simpl.
  - apply unchanged_ret.
  - apply unchanged_bind; [apply unchanged_gets|]. intros resolve.
    apply unchanged_if; [done|].
    apply unchanged_bind; [|done].
    apply unchanged_if; [apply on_fs_registry|apply unchanged_ret].
Qed.

End RegistryFrames.


(** ** The registry *)

Section Registry.

Import LocalSandbox.

Variable base_dir : Path.
Variable utc_now : nat -> Z.
Variable environ : gmap string string.
Variable subprocess_run :
  Spawn -> gmap (list string) FS.Node -> RunOutcome * Z * gmap (list string) FS.Node.















End Registry.

Section SandboxPaths.

Import LocalSandbox.

Variable base_dir : Path.
Variable utc_now : nat -> Z.
Variable environ : gmap string string.
Variable subprocess_run :
  Spawn -> gmap (list string) FS.Node -> RunOutcome * Z * gmap (list string) FS.Node.

Lemma filter_chars_drops (keep : ascii -> bool) (a : ascii) (s : string) :
  keep a = false -> PyStr.contains (String a "") (PyStr.filter_chars keep s) = false.
Proof.
  intros Ha. induction s as [|c s IH]; simpl; [done|].
  destruct (keep c) eqn:Hc; [|done]. simpl.
  destruct (decide (a = c)) as [->|Hne]; [congruence|]. simpl.
  destruct (PyStr.filter_chars keep s); [done|]. exact IH.
Qed.


Lemma safe_id_no_slash (session_id : string) :
  PyStr.contains "/" (safe_id session_id) = false.
Proof.
  unfold safe_id. case_bool_decide; [done|]. by apply filter_chars_drops.
Qed.


Lemma get_sandbox_path_parts (session_id : string) :
  _get_sandbox_path base_dir session_id
  = mkPath (root base_dir) (parts base_dir ++ ["noxrunner_sandbox_" +:+ safe_id session_id]).
Proof.
  unfold _get_sandbox_path. apply join_component.
  - simpl. pose proof (safe_id_no_slash session_id) as H.
    destruct (safe_id session_id); [done|]. exact H.
  - done.
Qed.


Lemma on_fs_shape {A} (m : M (gmap (list string) FS.Node) A) (w : World) :
  ∃ fs', (on_fs m w).2 = set_fs fs' w.
Proof. unfold on_fs. destruct (m (fs w)) as [r fs']. by exists fs'. Qed.

Lemma ensure_sandbox_clock (session_id : string) :
  unchanged clock_reads (_ensure_sandbox base_dir session_id).
Proof.
  unfold _ensure_sandbox.
  apply unchanged_bind; [|intros _; apply unchanged_bind; [|intros _; apply unchanged_ret]].
  - intros w. unfold mkdir_parents. by destruct (on_fs_shape (fs_step (FS.mkdir_parents (parts (resolve_in w (_get_sandbox_path base_dir session_id))))) w) as [fs' ->].
  - intros w. unfold mkdir_exist_ok. by destruct (on_fs_shape (fs_step (FS.mkdir_exist_ok (parts (resolve_in w (_get_sandbox_path base_dir session_id </> "workspace"))))) w) as [fs' ->].
Qed.

(** What a successful [create_sandbox] leaves in the registry. *)
Lemma create_sandbox_registry (session_id : string) (ttl : Z) (w w' : World) (r : CreateResult) :
  create_sandbox base_dir utc_now session_id ttl w = (inr r, w') ->
  _sandboxes w'
  = <[session_id := mkSandboxInfo (_get_sandbox_path base_dir session_id)
                      (utc_now (S (clock_reads w)))
                      (utc_now (clock_reads w) + timedelta ttl)%Z ttl]> (_sandboxes w)
  ∧ r = mkCreateResult ("local-" +:+ session_id) (utc_now (clock_reads w) + timedelta ttl)%Z.
Proof.
  unfold create_sandbox, bind.
  pose proof (ensure_sandbox_registry base_dir session_id w) as Hreg.
  pose proof (ensure_sandbox_clock session_id w) as Hclock.
  destruct (_ensure_sandbox base_dir session_id w) as [[e|p] w1] eqn:He; [done|].
  apply ensure_sandbox_value in He as ->. simpl in *.
  intros [= <- <-]. simpl. by rewrite Hreg, Hclock.
Qed.

End SandboxPaths.




(** ** Deleting a sandbox *)

Section Delete.

Import LocalSandbox.

Implicit Types fs : gmap (list string) FS.Node.







End Delete.

(** ** Running a command *)

Section FieldFrames.

Import LocalSandbox.

Context {X : Type} (proj : World -> X) (Hproj : frame_field proj).

Variable base_dir : Path.
Variable utc_now : nat -> Z.

Lemma on_fs_field {A} (m : M (gmap (list string) FS.Node) A) : unchanged proj (on_fs m).
Proof.
  intros w. destruct (on_fs_shape m w) as [fs' ->]. by destruct Hproj as (H & _ & _).
Qed.

Lemma print_field (line : string) : unchanged proj (print line).
Proof. intros w. destruct Hproj as (_ & _ & H). apply H. Qed.

Lemma print_warning_field (message : string) (critical : option string) :
  unchanged proj (_print_warning message critical).
Proof.
  unfold _print_warning.
  repeat (first [apply unchanged_bind; [|intros ?] | apply unchanged_if
                | apply print_field | apply unchanged_ret]).
Qed.

Lemma mkdir_parents_field (p : Path) : unchanged proj (mkdir_parents p).
Proof. intros w. unfold mkdir_parents. apply on_fs_field. Qed.

Lemma mkdir_exist_ok_field (p : Path) : unchanged proj (mkdir_exist_ok p).
Proof. intros w. unfold mkdir_exist_ok. apply on_fs_field. Qed.

Lemma datetime_now_field : unchanged proj (datetime_now utc_now).
Proof. intros w. destruct Hproj as (_ & _ & H). apply H. Qed.

Lemma set_sandboxes_field (f : gmap string SandboxInfo -> gmap string SandboxInfo) :
  unchanged proj (modify (set_sandboxes f)).
Proof. intros w. destruct Hproj as (_ & H & _). apply H. Qed.

Lemma get_sandbox_field (session_id : string) : unchanged proj (get_sandbox session_id).
Proof. intros w. unfold get_sandbox. by destruct (_sandboxes w !! session_id). Qed.

Lemma create_sandbox_field (session_id : string) (ttl : Z) :
  unchanged proj (create_sandbox base_dir utc_now session_id ttl).
Proof.
  unfold create_sandbox, _ensure_sandbox.
  repeat (first [apply unchanged_bind; [|intros ?] | apply mkdir_parents_field
                | apply mkdir_exist_ok_field | apply datetime_now_field
                | apply set_sandboxes_field | apply unchanged_ret]).
Qed.

Lemma create_if_missing_field (session_id : string) :
  unchanged proj (create_if_missing base_dir utc_now session_id).
Proof.
  unfold create_if_missing. apply unchanged_bind; [apply unchanged_gets|].
  intros [|]; [apply unchanged_ret|].
  apply unchanged_bind; [apply create_sandbox_field|]. intros ?. apply unchanged_ret.
Qed.

End FieldFrames.

Lemma cwd_frame_field : LocalSandbox.frame_field LocalSandbox.cwd.
Proof. by repeat split. Qed.

Lemma spawned_frame_field : LocalSandbox.frame_field LocalSandbox.spawned.
Proof. by repeat split. Qed.

Section ExecFacts.

Import LocalSandbox.

Implicit Types fs : gmap (list string) FS.Node.

Variable base_dir : Path.
Variable utc_now : nat -> Z.
Variable environ : gmap string string.
Variable subprocess_run :
  Spawn -> gmap (list string) FS.Node -> RunOutcome * Z * gmap (list string) FS.Node.

Lemma mkdir_walk_creates (below above : list string) fs fs' :
  FS.mkdir_walk above below fs = inr fs' -> below ≠ [] ->
  fs' !! (above ++ below) = Some FS.Dir.
Proof.
  revert above fs. induction below as [|c below IH]; intros above fs H Hne; [done|].
  simpl in H. destruct below as [|c' below].
  - destruct (fs !! (above ++ [c])) as [[|content]|] eqn:Hk; simpl in H.
    + by injection H as <-.
    + done.
    + injection H as <-. apply lookup_insert_eq.
  - replace (above ++ c :: c' :: below) with ((above ++ [c]) ++ c' :: below)
      by by rewrite <- app_assoc.
    destruct (fs !! (above ++ [c])) as [[|content]|] eqn:Hk.
    + by apply (IH _ _ H).
    + done.
    + by apply (IH _ _ H).
Qed.

Lemma mkdir_parents_is_dir (k : list string) fs fs' :
  FS.mkdir_parents k fs = inr fs' -> FS.node_at fs' k = Some FS.Dir.
Proof.
  intros H. destruct k as [|c k]; [done|].
  simpl. by apply (mkdir_walk_creates (c :: k) [] fs fs' H).
Qed.

(** A directory that is there stays one when directories are made. *)
Lemma mkdir_parents_keeps_dir (k k0 : list string) fs fs' :
  FS.mkdir_parents k fs = inr fs' -> FS.is_dir fs k0 = true -> FS.is_dir fs' k0 = true.
Proof.
  intros H. unfold FS.is_dir, FS.node_at. destruct k0 as [|c k0]; [done|].
  destruct (mkdir_walk_effect _ _ _ _ H (c :: k0)) as [->|[H1 H2]]; [done|].
  by rewrite H1.
Qed.


Lemma print_warning_returns (message : string) (critical : option string) (w : World) :
  (_print_warning message critical w).1 = inr tt.
Proof.
  unfold _print_warning, bind, print, modify.
  by destruct (match critical with Some _ => _ | None => _ end).
Qed.

Lemma exec_warning_returns (cmd : list string) (w : World) :
  exec_warning cmd w = (inr tt, (exec_warning cmd w).2).
Proof.
  pose proof (print_warning_returns
                ("Executing command in LOCAL environment: " +:+ PyStr.join " " cmd)
                (Some "⚠️  This may cause DATA LOSS or SECURITY RISKS! ⚠️") w) as H.
  unfold exec_warning. destruct (_print_warning _ _ w) as [r w']. simpl in H. by subst.
Qed.



(** [chdir] either fails and leaves the world, or moves to the resolved key. *)
Lemma chdir_cases (p : Path) (w : World) :
  (∃ e, chdir p w = (inl e, w)) ∨
  (FS.node_at (fs w) (parts (resolve_in w p)) = Some FS.Dir ∧
   chdir p w = (inr tt, set_cwd (parts (resolve_in w p)) w)).
Proof.
  unfold chdir. destruct (FS.node_at _ _) as [[|content]|]; eauto.
Qed.

Lemma resolve_absolute (c k : list string) (w : World) :
  parts (resolve_in w (mkPath Slash k)) = PurePath.normalize k.
Proof. done. Qed.

End ExecFacts.






(** ** Names of archive members *)

Section NameFacts.


Lemma split_cons (sep : ascii) (s : string) :
  PyStr.split sep s = List.hd "" (PyStr.split sep s) :: List.tl (PyStr.split sep s).
Proof. pose proof (split_nonempty sep s). by destruct (PyStr.split sep s). Qed.

(** The first piece of a string is still the first piece after backslashes
    became slashes, when it has no backslash. *)
Lemma split_replace_hd (s : string) :
  PyStr.contains "\" (List.hd "" (PyStr.split "/" s)) = false ->
  List.hd "" (PyStr.split "/" (PyStr.replace_char "\" "/" s))
  = List.hd "" (PyStr.split "/" s).
Proof.
  induction s as [|c s IH]; simpl; [done|].
  destruct (decide (c = "/"%char)) as [->|Hne]; [done|].
  rewrite (split_cons "/" s). simpl.
  destruct (decide ("\"%char = c)) as [<-|Hne2]; [done|].
  intros H.
  destruct (decide (c = "\"%char)) as [->|_]; [done|].
  destruct (decide (c = "/"%char)); [done|].
  rewrite (split_cons "/" (PyStr.replace_char "\" "/" s)). simpl.
  rewrite IH; [done|].
  destruct (List.hd "" (PyStr.split "/" s)); [done|]. exact H.
Qed.

Lemma split_replace_tl (s x : string) :
  PyStr.contains "\" x = false ->
  In x (List.tl (PyStr.split "/" s)) ->
  In x (List.tl (PyStr.split "/" (PyStr.replace_char "\" "/" s))).
Proof.
  intros Hx. induction s as [|c s IH]; simpl; [done|].
  destruct (decide (c = "/"%char)) as [->|Hne].
  - simpl. destruct (decide ("/"%char = "\"%char)); [done|].
    destruct (decide ("/"%char = "/"%char)); [|done]. simpl.
    rewrite (split_cons "/" s), (split_cons "/" (PyStr.replace_char "\" "/" s)).
    intros [<-|Hin].
    + left. by apply split_replace_hd.
    + right. by apply IH.
  - rewrite (split_cons "/" s). simpl. intros Hin. apply IH in Hin.
    destruct (decide (c = "\"%char)) as [->|Hne2].
    + destruct (decide ("/"%char = "/"%char)); [|done]. simpl.
      rewrite (split_cons "/" (PyStr.replace_char "\" "/" s)). by right.
    + destruct (decide (c = "/"%char)); [done|].
      by rewrite (split_cons "/" (PyStr.replace_char "\" "/" s)).
Qed.

(** A piece without backslash is still a piece after backslashes became
    slashes. *)
Lemma split_replace_in (s x : string) :
  PyStr.contains "\" x = false ->
  In x (PyStr.split "/" s) -> In x (PyStr.split "/" (PyStr.replace_char "\" "/" s)).
Proof.
  intros Hx. rewrite (split_cons "/" s), (split_cons "/" (PyStr.replace_char "\" "/" s)).
  intros [<-|Hin].
  - left. by apply split_replace_hd.
  - right. by apply split_replace_tl.
Qed.

Lemma has_parent_ref_false (n : string) :
  TarHandler.has_parent_ref n = false -> ¬ In ".." (PyStr.split "/" n).
Proof.
  unfold TarHandler.has_parent_ref. intros H Hin.
  apply (split_replace_in n "..") in Hin; [|done].
  assert (Ht : List.existsb (fun part => bool_decide (part = ".."))
                 (PyStr.split "/" (PyStr.replace_char "\" "/" n)) = true).
  { apply existsb_exists. exists "..". split; [done|]. by apply bool_decide_eq_true. }
  congruence.
Qed.




End NameFacts.

(** ** Lexical resolution *)

Section ResolveFacts.

Lemma normalize_steps_plain (ps stack : list string) :
  ¬ In ".." ps -> List.fold_left PurePath.normalize_step ps stack = List.rev ps ++ stack.
Proof.
  revert stack. induction ps as [|p ps IH]; intros stack Hn; [done|].
  simpl. unfold PurePath.normalize_step at 2.
  rewrite bool_decide_eq_false_2 by (intros ->; apply Hn; by left).
  rewrite IH by (intros H; apply Hn; by right). by rewrite <- app_assoc.
Qed.

(** Components without [..] after a path are appended to its normal form. *)
Lemma normalize_app_plain (xs ps : list string) :
  ¬ In ".." ps -> PurePath.normalize (xs ++ ps) = PurePath.normalize xs ++ ps.
Proof.
  intros Hn. unfold PurePath.normalize. rewrite fold_left_app.
  rewrite normalize_steps_plain by done. by rewrite rev_app_distr, rev_involutive.
Qed.

Lemma normalize_stack_no_parent (ps stack : list string) :
  ¬ In ".." stack -> ¬ In ".." (List.fold_left PurePath.normalize_step ps stack).
Proof.
  revert stack. induction ps as [|p ps IH]; intros stack Hn; [done|].
  simpl. apply IH. unfold PurePath.normalize_step. case_bool_decide as Hp.
  - intros H. apply Hn. destruct stack; [done|]. by right.
  - intros [H|H]; [by subst|done].
Qed.

Lemma normalize_no_parent (ps : list string) : ¬ In ".." (PurePath.normalize ps).
Proof.
  unfold PurePath.normalize. rewrite <- in_rev. apply normalize_stack_no_parent.
  simpl. tauto.
Qed.

Lemma normalize_plain (ps : list string) : ¬ In ".." ps -> PurePath.normalize ps = ps.
Proof.
  intros H. unfold PurePath.normalize. rewrite normalize_steps_plain by done.
  by rewrite app_nil_r, rev_involutive.
Qed.

(** Resolving a path extended by components without [..]. *)
Lemma lexical_resolve_extend (cwd : list string) (p : Path) (ps : list string) :
  ¬ In ".." ps ->
  PurePath.lexical_resolve cwd (mkPath (root p) (parts p ++ ps))
  = mkPath (root (PurePath.lexical_resolve cwd p))
           (parts (PurePath.lexical_resolve cwd p) ++ ps).
Proof.
  intros H. unfold PurePath.lexical_resolve. simpl.
  destruct (root p); simpl; by rewrite ?app_assoc, normalize_app_plain.
Qed.

Lemma lexical_resolve_idem (cwd : list string) (p : Path) :
  PurePath.lexical_resolve cwd (PurePath.lexical_resolve cwd p)
  = PurePath.lexical_resolve cwd p.
Proof.
  unfold PurePath.lexical_resolve.
  destruct (root p); simpl; by rewrite normalize_plain by apply normalize_no_parent.
Qed.

Lemma lexical_resolve_root (cwd : list string) (p : Path) :
  root (PurePath.lexical_resolve cwd p) ≠ NoRoot.
Proof. unfold PurePath.lexical_resolve. by destruct (root p). Qed.

End ResolveFacts.

(** ** Making directories, in detail *)

Section MkdirFacts.

Implicit Types fs : gmap (list string) FS.Node.





End MkdirFacts.

(** ** Packing and unpacking *)

Section RoundTrip.

Implicit Types fs : gmap (list string) FS.Node.






Section OneDestination.

Variable cwd : list string.
Variable py312 : bool.
Variable dest : Path.

Let resolve := PurePath.lexical_resolve cwd.
Let D := parts (resolve dest).






End OneDestination.

End RoundTrip.

Section RoundTripLoop.

Implicit Types fs : gmap (list string) FS.Node.

Variable cwd : list string.
Variable py312 : bool.
Variable dest : Path.

Let resolve := PurePath.lexical_resolve cwd.
Let D := parts (resolve dest).



End RoundTripLoop.




(** * Further properties of the code *)

(** ** Containment of sanitized paths *)

Section Containment.

Lemma relative_to_refl (p : Path) : PurePath.relative_to p p = true.
Proof.
  unfold PurePath.relative_to. by rewrite !bool_decide_eq_true_2.
Qed.

Lemma relative_to_trans (p q r : Path) :
  PurePath.relative_to p q = true -> PurePath.relative_to q r = true ->
  PurePath.relative_to p r = true.
Proof.
  unfold PurePath.relative_to.
  intros [H1 H2]%andb_true_iff [H3 H4]%andb_true_iff.
  apply bool_decide_eq_true in H1, H2, H3, H4.
  rewrite !bool_decide_eq_true_2; [done| by etrans | congruence].
Qed.

(** Joining a relative string never leaves the path it is joined to. *)
Lemma relative_to_join_relative (p : Path) (s : string) :
  root (PurePath.Path_of s) = NoRoot -> PurePath.relative_to (p </> s) p = true.
Proof.
  intros H. unfold PurePath.join, PurePath.joinpath. rewrite H.
  apply relative_to_extend.
Qed.

(** Both sanitizers end in the same way: the candidate if it lies under the
    resolved sandbox root, the workspace directory if not. *)
Lemma sanitize_path_cases (resolve : Path -> Path) (path : string) (sandbox_path : Path) :
  LocalSandbox._sanitize_path resolve path sandbox_path = resolve sandbox_path </> "workspace"
  ∨ PurePath.relative_to (LocalSandbox._sanitize_path resolve path sandbox_path)
      (resolve sandbox_path) = true.
Proof.
  unfold LocalSandbox._sanitize_path.
  destruct (PurePath.isabs path).
  - destruct (PurePath.relative_to (resolve (PurePath.Path_of path)) _) eqn:H; auto.
  - destruct (PurePath.relative_to (resolve (_ </> path)) _) eqn:H; auto.
Qed.





(** A path that is already resolved is its own resolution. *)
Lemma lexical_resolve_plain (cwd : list string) (p : Path) :
  root p ≠ NoRoot -> ¬ In ".." (parts p) -> PurePath.lexical_resolve cwd p = p.
Proof.
  intros Hr Hp. unfold PurePath.lexical_resolve. destruct p as [r ps]. simpl in *.
  destruct r; [done| |]; by rewrite normalize_plain.
Qed.

Lemma lexical_resolve_parts_plain (cwd : list string) (p : Path) :
  ¬ In ".." (parts (PurePath.lexical_resolve cwd p)).
Proof. unfold PurePath.lexical_resolve. destruct (root p); apply normalize_no_parent. Qed.




End Containment.

(** ** The validator and the sandbox directory *)

Section ValidatorMore.

Lemma lower_char_idem (c : ascii) : PyStr.lower_char (PyStr.lower_char c) = PyStr.lower_char c.
Proof. destruct c as [[] [] [] [] [] [] [] []]; reflexivity. Qed.

Lemma lower_idem (s : string) : PyStr.lower (PyStr.lower s) = PyStr.lower s.
Proof. induction s as [|c s IH]; simpl; [done|]. by rewrite lower_char_idem, IH. Qed.

(** X4.  [_validate_command] looks at the first element only, and only up to
    the case of its letters: two vectors whose first elements have the same
    lower-case form get the same answer, whatever their arguments. So a
    command name and its lower-case form are treated alike, and a name whose
    lower-case form is in the deny-set is rejected with any arguments. *)
Theorem validate_command_case_and_arguments (first first' : string)
  (args args' : list string) :
  (PyStr.lower first = PyStr.lower first' ->
   LocalSandbox._validate_command (first :: args)
   = LocalSandbox._validate_command (first' :: args'))
  ∧ LocalSandbox._validate_command (first :: args)
    = LocalSandbox._validate_command (PyStr.lower first :: args')
  ∧ (PyStr.lower first ∈ LocalSandbox._BLOCKED_COMMANDS ->
     LocalSandbox._validate_command (first :: args) = false).
Proof.
  unfold LocalSandbox._validate_command. split; [|split].
  - by intros ->.
  - by rewrite lower_idem.
  - intros H. by rewrite bool_decide_eq_true_2.
Qed.

Lemma validate_command_case_and_arguments_witness :
  LocalSandbox._validate_command ["ECHO"; "hello"]
  = LocalSandbox._validate_command ["echo"] ∧
  LocalSandbox._validate_command ["Rm"; "-rf"; "/"] = false.
Proof.
  destruct (validate_command_case_and_arguments "ECHO" "echo" ["hello"] []) as (H1 & _ & _).
  destruct (validate_command_case_and_arguments "Rm" "rm" ["-rf"; "/"] []) as (_ & _ & H2).
  split; [by apply H1|]. apply H2. vm_compute. set_solver.
Defined.

End ValidatorMore.

Section SandboxDirectory.

Lemma filter_chars_kept (keep : ascii -> bool) (s : string) :
  Forall (fun c => keep c = true) (list_ascii_of_string (PyStr.filter_chars keep s)).
Proof.
  induction s as [|c s IH]; simpl; [done|].
  destruct (keep c) eqn:Hc; [|done]. simpl. by constructor.
Qed.

(** X5.  Whatever the session identifier (slashes, dots, empty), the sandbox
    directory is a direct child of the base directory: its parent is the base
    directory, and its name is [noxrunner_sandbox_] followed by a non-empty
    string of letters, digits, [-] and [_]. *)
Theorem get_sandbox_path_child (base_dir : Path) (session_id : string) :
  PurePath.parent (LocalSandbox._get_sandbox_path base_dir session_id) = base_dir ∧
  PurePath.name (LocalSandbox._get_sandbox_path base_dir session_id)
  = "noxrunner_sandbox_" +:+ LocalSandbox.safe_id session_id ∧
  LocalSandbox.safe_id session_id ≠ "" ∧
  Forall (fun c => PyStr.isalnum c || bool_decide (c = "-"%char)
                   || bool_decide (c = "_"%char) = true)
         (list_ascii_of_string (LocalSandbox.safe_id session_id)).
Proof.
  rewrite get_sandbox_path_parts. unfold PurePath.parent, PurePath.name. simpl.
  rewrite removelast_last, last_last. split; [by destruct base_dir|]. split; [done|].
  unfold LocalSandbox.safe_id. case_bool_decide as He.
  - split; [done|]. repeat constructor.
  - split; [done|]. apply filter_chars_kept.
Qed.

End SandboxDirectory.

(** ** The life of a record *)

Section Lifecycle.

Import LocalSandbox.

Implicit Types fs : gmap (list string) FS.Node.

Variable base_dir : Path.
Variable utc_now : nat -> Z.

Lemma mkdir_exist_ok_cases (k : list string) fs fs' :
  FS.mkdir_exist_ok k fs = inr fs' ->
  FS.node_at fs (removelast k) = Some FS.Dir ∧
  ((fs' = fs ∧ FS.node_at fs k = Some FS.Dir) ∨
   (fs' = <[k := FS.Dir]> fs ∧ FS.node_at fs k = None)).
Proof.
  unfold FS.mkdir_exist_ok.
  destruct (FS.node_at fs (removelast k)) as [[|c]|]; [|done|done].
  destruct (FS.node_at fs k) as [[|c]|]; [|done|]; intros [= <-]; auto.
Qed.

Lemma mkdir_exist_ok_lookup (k k0 : list string) fs fs' :
  FS.mkdir_exist_ok k fs = inr fs' ->
  fs' !! k0 = fs !! k0 ∨ (fs !! k0 = None ∧ fs' !! k0 = Some FS.Dir).
Proof.
  intros (_ & [[-> _]|[-> Hn]])%mkdir_exist_ok_cases; [by left|].
  destruct (decide (k = k0)) as [<-|Hne].
  - right. rewrite lookup_insert_eq. split; [|done]. by destruct k.
  - left. by rewrite lookup_insert_ne.
Qed.

Lemma mkdir_exist_ok_is_dir (k : list string) fs fs' :
  FS.mkdir_exist_ok k fs = inr fs' -> FS.node_at fs' k = Some FS.Dir.
Proof.
  intros (_ & [[-> H]|[-> Hn]])%mkdir_exist_ok_cases; [done|].
  destruct k; [done|]. simpl. apply lookup_insert_eq.
Qed.

Lemma lookup_step_keeps_dir (k0 : list string) fs fs' :
  (fs' !! k0 = fs !! k0 ∨ (fs !! k0 = None ∧ fs' !! k0 = Some FS.Dir)) ->
  FS.is_dir fs k0 = true -> FS.is_dir fs' k0 = true.
Proof.
  unfold FS.is_dir, FS.node_at. destruct k0; [done|].
  intros [->|[-> _]]; done.
Qed.

Lemma lookup_step_files (k0 : list string) (c : list Byte.byte) fs fs' :
  (fs' !! k0 = fs !! k0 ∨ (fs !! k0 = None ∧ fs' !! k0 = Some FS.Dir)) ->
  fs' !! k0 = Some (FS.File c) <-> fs !! k0 = Some (FS.File c).
Proof. intros [->|[-> ->]]; [done|]. split; discriminate. Qed.


(** The world a successful [create_sandbox] leaves. *)
Lemma create_sandbox_world (session_id : string) (ttl : Z) (w w' : World)
  (r : CreateResult) :
  create_sandbox base_dir utc_now session_id ttl w = (inr r, w') ->
  let sandbox_path := _get_sandbox_path base_dir session_id in
  ∃ fs1 fs2,
    FS.mkdir_parents (parts (resolve_in w sandbox_path)) (fs w) = inr fs1 ∧
    FS.mkdir_exist_ok (parts (resolve_in w (sandbox_path </> "workspace"))) fs1 = inr fs2 ∧
    w' = mkWorld
           (<[session_id := mkSandboxInfo sandbox_path (utc_now (S (clock_reads w)))
                              (utc_now (clock_reads w) + timedelta ttl)%Z ttl]>
              (_sandboxes w))
           fs2 (cwd w) (S (S (clock_reads w))) (sys_stderr w) (spawned w) ∧
    r = mkCreateResult ("local-" +:+ session_id) (utc_now (clock_reads w) + timedelta ttl)%Z.
Proof.
  intros H sandbox_path.
  unfold create_sandbox, _ensure_sandbox, bind, mkdir_parents, mkdir_exist_ok, on_fs, fs_step
    in H.
  fold sandbox_path in H.
  destruct (FS.mkdir_parents (parts (resolve_in w sandbox_path)) (fs w)) as [e|fs1]; [done|].
  simpl in H. unfold resolve_in in H. simpl in H. fold (resolve_in w) in H.
  destruct (FS.mkdir_exist_ok _ fs1) as [e|fs2] eqn:H2; [done|].
  simpl in H. injection H as <- <-. by exists fs1, fs2.
Qed.

(** What a successful [create_sandbox] does to the file system. *)
Lemma create_sandbox_fs (session_id : string) (ttl : Z) (w w' : World)
  (r : CreateResult) :
  create_sandbox base_dir utc_now session_id ttl w = (inr r, w') ->
  let sandbox_path := _get_sandbox_path base_dir session_id in
  FS.is_dir (fs w') (parts (resolve_in w sandbox_path)) = true ∧
  FS.is_dir (fs w') (parts (resolve_in w (sandbox_path </> "workspace"))) = true ∧
  (∀ k c, fs w' !! k = Some (FS.File c) <-> fs w !! k = Some (FS.File c)) ∧
  (∀ k, FS.is_dir (fs w) k = true -> FS.is_dir (fs w') k = true).
Proof.
  intros H sandbox_path.
  destruct (create_sandbox_world _ _ _ _ _ H) as (fs1 & fs2 & H1 & H2 & -> & ->).
  fold sandbox_path in H1, H2. simpl.
  pose proof (mkdir_walk_effect _ _ _ _ H1) as E1.
  pose proof (fun k0 => mkdir_exist_ok_lookup _ k0 _ _ H2) as E2.
  split; [|split; [|split]].
  - apply (lookup_step_keeps_dir _ fs1); [apply E2|].
    unfold FS.is_dir. by rewrite (mkdir_parents_is_dir _ _ _ H1).
  - unfold FS.is_dir. by rewrite (mkdir_exist_ok_is_dir _ _ _ H2).
  - intros k c. rewrite (lookup_step_files k c fs1 fs2 (E2 k)).
    apply lookup_step_files, E1.
  - intros k Hk. apply (lookup_step_keeps_dir _ fs1); [apply E2|].
    by apply (lookup_step_keeps_dir _ (fs w)); [apply E1|].
Qed.

(** X6.  A successful [create_sandbox]: the sandbox directory and its
    workspace are directories afterwards; no regular file is added, changed or
    removed and no directory is lost; the registry holds the new record
    (directory computed from the identifier, expiry at the time of the call
    plus the TTL) and every other record as before; the caller's working
    directory and the list of spawned processes are untouched. *)
Theorem create_sandbox_outcome (session_id : string) (ttl : Z) (w w' : World)
  (r : CreateResult) :
  create_sandbox base_dir utc_now session_id ttl w = (inr r, w') ->
  let sandbox_path := _get_sandbox_path base_dir session_id in
  FS.is_dir (fs w') (parts (resolve_in w sandbox_path)) = true ∧
  FS.is_dir (fs w') (parts (resolve_in w (sandbox_path </> "workspace"))) = true ∧
  (∀ k c, fs w' !! k = Some (FS.File c) <-> fs w !! k = Some (FS.File c)) ∧
  (∀ k, FS.is_dir (fs w) k = true -> FS.is_dir (fs w') k = true) ∧
  _sandboxes w' !! session_id
  = Some (mkSandboxInfo sandbox_path (utc_now (S (clock_reads w)))
            (utc_now (clock_reads w) + timedelta ttl)%Z ttl) ∧
  (∀ other, other ≠ session_id -> _sandboxes w' !! other = _sandboxes w !! other) ∧
  r = mkCreateResult ("local-" +:+ session_id) (utc_now (clock_reads w) + timedelta ttl)%Z ∧
  cwd w' = cwd w ∧ spawned w' = spawned w.
Proof.
  intros H sandbox_path.
  destruct (create_sandbox_fs _ _ _ _ _ H) as (Hroot & Hws & Hfiles & Hdirs).
  destruct (create_sandbox_world _ _ _ _ _ H) as (fs1 & fs2 & _ & _ & -> & ->).
  fold sandbox_path. simpl in *.
  split; [done|]. split; [done|]. split; [done|]. split; [done|].
  split; [apply lookup_insert_eq|].
  split; [|done]. intros other Hne. by apply lookup_insert_ne.
Qed.


End Lifecycle.

Lemma create_sandbox_outcome_witness :
  let w := LocalSandbox.mkWorld ∅ ∅ ["home"; "u"] 0 [] [] in
  let after :=
    LocalSandbox.create_sandbox (mkPath NoRoot ["sandboxes"]) (fun n => Z.of_nat n)
      "job/1" 60 w in
  FS.is_dir (LocalSandbox.fs after.2)
    ["home"; "u"; "sandboxes"; "noxrunner_sandbox_job1"; "workspace"] = true ∧
  LocalSandbox.expires_at <$> (LocalSandbox._sandboxes after.2 !! "job/1")
  = Some 60000000%Z.
Proof.
  intros w after.
  destruct (create_sandbox_outcome (mkPath NoRoot ["sandboxes"]) (fun n => Z.of_nat n)
              "job/1" 60 w after.2 (LocalSandbox.mkCreateResult "local-job/1" 60000000))
    as (_ & Hws & _ & _ & Hreg & _).
  { vm_compute. reflexivity. }
  split; [exact Hws|]. by rewrite Hreg.
Defined.


Section Lifecycle2.

Import LocalSandbox.

Implicit Types fs : gmap (list string) FS.Node.

Variable base_dir : Path.
Variable utc_now : nat -> Z.



End Lifecycle2.



(** ** More on running a command *)

Section ExecMore.

Import LocalSandbox.

Implicit Types fs : gmap (list string) FS.Node.

Variable base_dir : Path.
Variable utc_now : nat -> Z.
Variable environ : gmap string string.
Variable subprocess_run :
  Spawn -> gmap (list string) FS.Node -> RunOutcome * Z * gmap (list string) FS.Node.

(** X10.  [exec] spawns at most one process, and only for a command that
    passed validation: the process gets the argument vector as given, the
    timeout as given, a working directory that lies under the resolved root of
    the session's record, and the inherited environment with the caller's
    variables on top. This holds whether [exec] returns or raises. *)
Theorem exec_spawn_confined (session_id : string) (cmd : list string) (workdir : string)
  (env : option (gmap string string)) (timeout_seconds : Z) (w : World) :
  let w' := (exec base_dir utc_now environ subprocess_run
               session_id cmd workdir env timeout_seconds w).2 in
  spawned w' = spawned w ∨
  ∃ info call,
    _sandboxes w' !! session_id = Some info ∧
    spawned w' = spawned w ++ [call] ∧
    _validate_command cmd = true ∧
    spawn_cmd call = cmd ∧
    spawn_timeout call = timeout_seconds ∧
    PurePath.relative_to (spawn_cwd call) (resolve_in w (path info)) = true ∧
    (∀ k, spawn_env call !! k
          = match env with
            | Some overrides =>
                match overrides !! k with
                | Some v => Some v
                | None => environ !! k
                end
            | None => environ !! k
            end).
Proof.
  intros w'. subst w'.
  assert (Hsp0 : spawned (create_if_missing base_dir utc_now session_id
                            (exec_warning cmd w).2).2 = spawned w).
  { apply (create_if_missing_field spawned spawned_frame_field
             base_dir utc_now session_id (exec_warning cmd w).2). }
  assert (Hcwd0 : cwd (create_if_missing base_dir utc_now session_id
                         (exec_warning cmd w).2).2 = cwd w).
  { apply (create_if_missing_field cwd cwd_frame_field
             base_dir utc_now session_id (exec_warning cmd w).2). }
  unfold exec, bind. rewrite exec_warning_returns.
  destruct (create_if_missing _ _ _ _) as [[e|[]] w1]; simpl in Hsp0, Hcwd0; [by left|].
  unfold get_sandbox.
  destruct (_sandboxes w1 !! session_id) as [info|] eqn:Hinfo; [|by left].
  destruct (_validate_command cmd) eqn:Hval; [|by left]. simpl.
  set (workdir_path := _sanitize_path (resolve_in w1) workdir (path info)).
  pose proof (mkdir_parents_field spawned spawned_frame_field workdir_path w1) as Hsp2.
  pose proof (mkdir_parents_registry workdir_path w1) as Hreg2.
  destruct (mkdir_parents workdir_path w1) as [[e|[]] w2]; simpl in Hsp2, Hreg2;
    [left; simpl; congruence|].
  unfold getcwd.
  destruct (FS.is_dir (fs w2) (cwd w2)); [|left; simpl; congruence].
  unfold try_finally, bind.
  destruct (chdir_cases workdir_path w2) as [[e He]|[_ He]]; rewrite He.
  - left. destruct (chdir_cases (mkPath Slash (cwd w2)) w2) as [[e' He']|[_ He']];
      rewrite He'; simpl; congruence.
  - right. unfold run_subprocess. simpl.
    set (call := mkSpawn cmd workdir_path _ timeout_seconds).
    destruct (subprocess_run call (fs w2)) as [[outcome ms] fs'].
    exists info, call.
    assert (Hfinal : ∀ (A : Type) (r : Exn + A) (wa : World),
              _sandboxes wa = _sandboxes w2 -> spawned wa = spawned w2 ++ [call] ->
              _sandboxes ((let (r0, s'') := chdir (mkPath Slash (cwd w2)) wa in
                           match r0 with inl e => (inl e, s'') | inr _ => (r, s'') end)).2
                !! session_id = Some info ∧
              spawned ((let (r0, s'') := chdir (mkPath Slash (cwd w2)) wa in
                        match r0 with inl e => (inl e, s'') | inr _ => (r, s'') end)).2
              = spawned w ++ [call]).
    { intros A r wa Hr Hs.
      destruct (chdir_cases (mkPath Slash (cwd w2)) wa) as [[e' He']|[_ He']];
        rewrite He'; simpl; rewrite ?Hr, ?Hs, ?Hreg2, ?Hsp2, ?Hsp0; done. }
    destruct (Hfinal ExecResult
                (inr match outcome with
                     | Completed returncode out err =>
                         mkExecResult returncode out err ms
                     | TimeoutExpired =>
                         mkExecResult 124 ""
                           ("Command timed out after " +:+ str_of_int timeout_seconds
                            +:+ " seconds") ms
                     | FileNotFound =>
                         mkExecResult 127 "" ("Command not found: " +:+ hd "" cmd) ms
                     | OtherError msg =>
                         mkExecResult 1 "" ("Execution error: " +:+ msg) ms
                     end)
                (mkWorld (_sandboxes w2) fs' (parts (resolve_in w2 workdir_path))
                   (clock_reads w2) (sys_stderr w2) (spawned w2 ++ [call]))
                eq_refl eq_refl) as [H1 H2].
    split; [exact H1|]. split; [exact H2|]. split; [done|]. split; [done|].
    split; [done|]. split.
    + subst call workdir_path. simpl. unfold resolve_in. rewrite Hcwd0.
      destruct (sanitize_path_cases (PurePath.lexical_resolve (cwd w)) workdir (path info))
        as [->|H]; [|done].
      by apply relative_to_join_relative.
    + intros k. subst call. simpl. destruct env as [overrides|]; [|done].
      destruct (overrides !! k) as [v|] eqn:Hk.
      * by apply lookup_union_Some_l.
      * by apply lookup_union_r.
Qed.

End ExecMore.

(** ** Creation on first use, and the warning of [exec] *)

Section FirstUse.

Import LocalSandbox.

Implicit Types fs : gmap (list string) FS.Node.

Variable base_dir : Path.
Variable utc_now : nat -> Z.
Variable environ : gmap string string.
Variable subprocess_run :
  Spawn -> gmap (list string) FS.Node -> RunOutcome * Z * gmap (list string) FS.Node.

(** What follows a step that leaves a component alone leaves it as that
    step left it. *)
Lemma bind_tail_unchanged {X A B} (proj : World -> X) (m : M World A)
  (k : A -> M World B) (w : World) :
  (∀ a, unchanged proj (k a)) -> proj (bind m k w).2 = proj (m w).2.
Proof.
  intros H. unfold bind. destruct (m w) as [[e|a] w1]; [done|]. apply H.
Qed.

Lemma bind_returns {A B} (m : M World A) (k : A -> M World B) (w w' : World) (b : B) :
  bind m k w = (inr b, w') -> ∃ a, m w = (inr a, (m w).2).
Proof.
  unfold bind. destruct (m w) as [[e|a] w1]; [done|]. by exists a.
Qed.

Lemma print_clock (line : string) : unchanged clock_reads (print line).
Proof. by intros w. Qed.

Lemma print_warning_clock (message : string) (critical : option string) :
  unchanged clock_reads (_print_warning message critical).
Proof.
  unfold _print_warning.
  repeat (first [apply unchanged_bind; [|intros ?] | apply unchanged_if
                | apply print_clock | apply unchanged_ret]).
Qed.

(** The two lines every lazy operation starts with. *)
Lemma create_if_missing_registry (session_id : string) (w : World) :
  (is_Some (_sandboxes w !! session_id) ->
   create_if_missing base_dir utc_now session_id w = (inr tt, w)) ∧
  (_sandboxes w !! session_id = None ->
   ∀ w1, create_if_missing base_dir utc_now session_id w = (inr tt, w1) ->
         _sandboxes w1
         = <[session_id := mkSandboxInfo (_get_sandbox_path base_dir session_id)
                             (utc_now (S (clock_reads w)))
                             (utc_now (clock_reads w) + timedelta 900)%Z 900]>
             (_sandboxes w)).
Proof.
  unfold create_if_missing, bind, gets. split.
  - intros H. by rewrite bool_decide_eq_true_2.
  - intros H w1. rewrite bool_decide_eq_false_2 by (rewrite H; by intros [? ?]).
    destruct (create_sandbox _ _ _ _ _) as [[e|r] w2] eqn:Hc; [done|].
    intros [= <-]. by destruct (create_sandbox_registry _ _ _ _ _ _ _ Hc).
Qed.

(** An operation that begins with those two lines and does not touch the
    registry afterwards. *)
Lemma lazy_registry {A} (tail : M World A) (session_id : string) (w : World) :
  unchanged _sandboxes tail ->
  let m := bind (create_if_missing base_dir utc_now session_id) (fun _ => tail) in
  (is_Some (_sandboxes w !! session_id) -> _sandboxes (m w).2 = _sandboxes w) ∧
  (_sandboxes w !! session_id = None ->
   ∀ r w', m w = (inr r, w') ->
           _sandboxes w'
           = <[session_id := mkSandboxInfo (_get_sandbox_path base_dir session_id)
                               (utc_now (S (clock_reads w)))
                               (utc_now (clock_reads w) + timedelta 900)%Z 900]>
               (_sandboxes w)).
Proof.
  intros Htail m. subst m.
  destruct (create_if_missing_registry session_id w) as [Hlive Hnew]. split.
  - intros H. rewrite bind_tail_unchanged by (intros _; exact Htail).
    by rewrite (Hlive H).
  - intros H r w' Hm.
    assert (_sandboxes w' = _sandboxes (create_if_missing base_dir utc_now session_id w).2)
      as ->.
    { change w' with (inr (A:=Exn) r, w').2. rewrite <- Hm.
      apply bind_tail_unchanged. intros _. exact Htail. }
    destruct (bind_returns _ _ _ _ _ Hm) as [[] Hc]. by apply (Hnew H).
Qed.

Lemma exec_tail_registry (session_id : string) (cmd : list string) (workdir : string)
  (env : option (gmap string string)) (timeout_seconds : Z) :
  ∃ tail, unchanged _sandboxes tail ∧
          exec base_dir utc_now environ subprocess_run session_id cmd workdir env timeout_seconds
          = bind (exec_warning cmd)
              (fun _ => bind (create_if_missing base_dir utc_now session_id)
                          (fun _ => tail)).
Proof.
  eexists. split; [|reflexivity].
  apply unchanged_bind; [apply get_sandbox_registry|]. intros sandbox.
  apply unchanged_if; [apply unchanged_ret|].
  apply unchanged_bind; [apply unchanged_gets|]. intros resolve.
  apply unchanged_bind; [apply mkdir_parents_registry|]. intros _.
  apply unchanged_bind; [apply getcwd_registry|]. intros original_cwd.
  apply unchanged_try_finally; [|apply chdir_registry].
  apply unchanged_bind; [apply chdir_registry|]. intros _.
  apply unchanged_bind; [apply run_subprocess_registry|]. intros [outcome ms].
  apply unchanged_ret.
Qed.

(** X11.  [exec], [upload_files], [upload_tar] and [wait_for_pod_ready] create
    the sandbox on first use and only then. On an identifier with a live
    record they leave the registry as it is, whether they return or raise. On
    an unknown identifier, whenever they return, the registry has gained
    exactly the record [create_sandbox] makes with the default TTL of 900
    seconds. *)
Theorem operations_create_lazily (session_id : string) (w : World) :
  let fresh :=
    mkSandboxInfo (_get_sandbox_path base_dir session_id) (utc_now (S (clock_reads w)))
      (utc_now (clock_reads w) + timedelta 900)%Z 900 in
  let lazy := fun (A : Type) (m : M World A) =>
    (is_Some (_sandboxes w !! session_id) -> _sandboxes (m w).2 = _sandboxes w) ∧
    (_sandboxes w !! session_id = None ->
     ∀ r w', m w = (inr r, w') -> _sandboxes w' = <[session_id := fresh]> (_sandboxes w)) in
  (∀ cmd workdir env timeout_seconds,
     lazy _ (exec base_dir utc_now environ subprocess_run
               session_id cmd workdir env timeout_seconds)) ∧
  (∀ files dest, lazy _ (upload_files base_dir utc_now session_id files dest)) ∧
  (∀ tar_data dest, lazy _ (upload_tar base_dir utc_now session_id tar_data dest)) ∧
  lazy _ (wait_for_pod_ready base_dir utc_now session_id).
Proof.
  intros fresh lazy. subst lazy fresh. cbv beta.
  split; [|split; [|split]].
  - intros cmd workdir env timeout_seconds.
    destruct (exec_tail_registry session_id cmd workdir env timeout_seconds)
      as (tail & Htail & ->).
    pose proof (exec_warning_returns cmd w) as Hw.
    pose proof (print_warning_registry
                  ("Executing command in LOCAL environment: " +:+ PyStr.join " " cmd)
                  (Some "⚠️  This may cause DATA LOSS or SECURITY RISKS! ⚠️") w) as Hreg.
    pose proof (print_warning_clock
                  ("Executing command in LOCAL environment: " +:+ PyStr.join " " cmd)
                  (Some "⚠️  This may cause DATA LOSS or SECURITY RISKS! ⚠️") w) as Hclock.
    fold (exec_warning cmd) in Hreg, Hclock.
    unfold bind at 1. rewrite Hw.
    destruct (lazy_registry tail session_id (exec_warning cmd w).2 Htail) as [H1 H2].
    rewrite Hreg, Hclock in *. split; [exact H1|exact H2].
  - intros files dest. apply lazy_registry.
    apply unchanged_bind; [apply get_sandbox_registry|]. intros sandbox.
    apply unchanged_bind; [apply unchanged_gets|]. intros resolve.
    apply unchanged_bind; [apply mkdir_parents_registry|]. intros _.
    apply unchanged_bind; [apply upload_each_registry|]. intros _.
    apply unchanged_ret.
  - intros tar_data dest. apply lazy_registry.
    apply unchanged_bind; [apply get_sandbox_registry|]. intros sandbox.
    apply unchanged_bind; [apply unchanged_gets|]. intros resolve.
    apply unchanged_bind; [apply mkdir_parents_registry|]. intros _.
    destruct tar_data as [|members]; [apply unchanged_raise|].
    apply unchanged_bind; [apply upload_members_registry|]. intros _.
    apply unchanged_ret.
  - apply lazy_registry. apply unchanged_ret.
Qed.

End FirstUse.

Lemma operations_create_lazily_witness :
  let w := LocalSandbox.mkWorld ∅ ∅ ["home"; "u"] 0 [] [] in
  let after :=
    LocalSandbox.wait_for_pod_ready (mkPath Slash ["tmp"]) (fun n => Z.of_nat n) "s" w in
  after.1 = inr true ∧
  LocalSandbox._sandboxes after.2 !! "s"
  = Some (LocalSandbox.mkSandboxInfo (mkPath Slash ["tmp"; "noxrunner_sandbox_s"])
            1 900000000 900).
Proof.
  intros w after.
  destruct (operations_create_lazily (mkPath Slash ["tmp"]) (fun n => Z.of_nat n) ∅
              (fun _ fs => (LocalSandbox.FileNotFound, 0%Z, fs)) "s" w)
    as (_ & _ & _ & _ & Hnew).
  split; [vm_compute; reflexivity|].
  rewrite (Hnew eq_refl true after.2); [|vm_compute; reflexivity].
  by rewrite lookup_insert_eq.
Defined.

Section Warning.

Import LocalSandbox.

Implicit Types fs : gmap (list string) FS.Node.

Variable base_dir : Path.
Variable utc_now : nat -> Z.
Variable environ : gmap string string.
Variable subprocess_run :
  Spawn -> gmap (list string) FS.Node -> RunOutcome * Z * gmap (list string) FS.Node.

Lemma on_fs_stderr {A} (m : M (gmap (list string) FS.Node) A) :
  unchanged sys_stderr (on_fs m).
Proof. intros w. by destruct (on_fs_shape m w) as [fs' ->]. Qed.

Lemma create_if_missing_stderr (session_id : string) :
  unchanged sys_stderr (create_if_missing base_dir utc_now session_id).
Proof.
  unfold create_if_missing. apply unchanged_bind; [apply unchanged_gets|].
  intros [|]; [apply unchanged_ret|].
  apply unchanged_bind; [|intros ?; apply unchanged_ret].
  unfold create_sandbox, _ensure_sandbox, mkdir_parents, mkdir_exist_ok.
  repeat (first [apply unchanged_bind; [|intros ?] | apply unchanged_ret
                | by intros w | intros w; apply on_fs_stderr]).
Qed.

(** X12.  Every call of [exec] writes its warning to the error stream, and
    nothing else: an empty line, the critical-warning line with the command
    joined by blanks, the line about data loss, an empty line. This holds for
    a command that is rejected and for a call that raises as well. *)
Theorem exec_always_warns (session_id : string) (cmd : list string) (workdir : string)
  (env : option (gmap string string)) (timeout_seconds : Z) (w : World) :
  sys_stderr (exec base_dir utc_now environ subprocess_run
                session_id cmd workdir env timeout_seconds w).2
  = sys_stderr w ++
    [ "";
      ESC +:+ "[91m" +:+ ESC +:+ "[1m🚨 CRITICAL WARNING" +:+ ESC +:+ "[0m" +:+ ESC +:+ "[91m"
        +:+ ": " +:+ "Executing command in LOCAL environment: " +:+ PyStr.join " " cmd
        +:+ ESC +:+ "[0m";
      ESC +:+ "[91m" +:+ ESC +:+ "[1m"
        +:+ "⚠️  This may cause DATA LOSS or SECURITY RISKS! ⚠️" +:+ ESC +:+ "[0m";
      "" ].
Proof.
  unfold exec.
  rewrite bind_tail_unchanged.
  - unfold exec_warning, _print_warning, bind, print, modify. simpl.
    by rewrite <- !app_assoc.
  - intros _.
    apply unchanged_bind; [apply create_if_missing_stderr|]. intros _.
    apply unchanged_bind;
      [intros w0; unfold get_sandbox; by destruct (_sandboxes w0 !! session_id)|].
    intros sandbox.
    apply unchanged_if; [apply unchanged_ret|].
    apply unchanged_bind; [apply unchanged_gets|]. intros resolve.
    apply unchanged_bind; [intros w0; apply on_fs_stderr|]. intros _.
    apply unchanged_bind;
      [intros w0; unfold getcwd; by destruct (FS.is_dir _ _)|]. intros original_cwd.
    assert (Hchdir : ∀ p, unchanged sys_stderr (chdir p)).
    { intros p w0. unfold chdir. by repeat case_match. }
    apply unchanged_try_finally; [|apply Hchdir].
    apply unchanged_bind; [apply Hchdir|]. intros _.
    apply unchanged_bind;
      [intros w0; unfold run_subprocess;
       by destruct (subprocess_run _ (fs w0)) as [[? ?] ?]|]. intros [outcome ms].
    apply unchanged_ret.
Qed.

End Warning.

(** ** Uploading files *)

Section Upload.

Import LocalSandbox.

Implicit Types fs : gmap (list string) FS.Node.

Variable base_dir : Path.
Variable utc_now : nat -> Z.

(** [Path(filepath).name] is empty, or one component. *)
Lemma name_cases (filepath : string) :
  let n := PurePath.name (PurePath.Path_of filepath) in
  n = "" ∨ (PyStr.contains "/" n = false ∧ PurePath.is_component n = true).
Proof.
  intros n. subst n. unfold PurePath.name, PurePath.Path_of. simpl.
  destruct (List.filter PurePath.is_component (PyStr.split "/" filepath)) as [|x l] eqn:Hf;
    [by left|].
  right.
  assert (Hin : In (List.last (x :: l) "")
                  (List.filter PurePath.is_component (PyStr.split "/" filepath))).
  { rewrite Hf. by apply last_in. }
  apply filter_In in Hin as [Hin Hc]. split; [|done].
  pose proof (split_no_sep "/" filepath) as Hs.
  rewrite Forall_forall in Hs. apply Hs. by apply list_elem_of_In.
Qed.










Lemma workspace_resolved (cwd : list string) (sandbox_path : Path) :
  PurePath.lexical_resolve cwd (PurePath.lexical_resolve cwd sandbox_path </> "workspace")
  = PurePath.lexical_resolve cwd sandbox_path </> "workspace".
Proof.
  assert (Hws : PurePath.lexical_resolve cwd sandbox_path </> "workspace"
                = mkPath (root (PurePath.lexical_resolve cwd sandbox_path))
                         (parts (PurePath.lexical_resolve cwd sandbox_path) ++ ["workspace"]))
    by done.
  rewrite Hws. apply lexical_resolve_plain; simpl.
  - apply lexical_resolve_root.
  - intros [H|[H|[]]]%in_app_or; [|done].
    by apply (lexical_resolve_parts_plain cwd sandbox_path).
Qed.

(** What [_sanitize_path] returns is resolved already. *)
Lemma sanitize_path_resolved (cwd : list string) (path : string) (sandbox_path : Path) :
  PurePath.lexical_resolve cwd
    (_sanitize_path (PurePath.lexical_resolve cwd) path sandbox_path)
  = _sanitize_path (PurePath.lexical_resolve cwd) path sandbox_path.
Proof.
  unfold _sanitize_path.
  destruct (PurePath.isabs path).
  - destruct (PurePath.relative_to _ _);
      [apply lexical_resolve_idem|apply workspace_resolved].
  - destruct (PurePath.relative_to _ _);
      [apply lexical_resolve_idem|apply workspace_resolved].
Qed.

(** Creation on first use makes directories only. *)
Lemma create_if_missing_files (session_id : string) (w : World) (k : list string)
  (c : list Byte.byte) :
  fs (create_if_missing base_dir utc_now session_id w).2 !! k = Some (FS.File c)
  <-> fs w !! k = Some (FS.File c).
Proof.
  unfold create_if_missing, bind, gets.
  destruct (bool_decide _); [done|].
  unfold create_sandbox, _ensure_sandbox, bind, mkdir_parents, mkdir_exist_ok, on_fs.
  destruct (fs_step _ (fs w)) as [r1 fs1] eqn:H1.
  apply fs_step_cases in H1 as [[-> H1]|(e & -> & _ & ->)]; [|done].
  pose proof (mkdir_parents_files _ _ _ H1 k c) as E1. simpl.
  destruct (fs_step _ fs1) as [r2 fs2] eqn:H2.
  apply fs_step_cases in H2 as [[-> H2]|(e & -> & _ & ->)]; [|done].
  simpl. rewrite <- E1. apply lookup_step_files. by apply (mkdir_exist_ok_lookup _ _ _ _ H2).
Qed.




End Upload.



(** ** More on archives *)

Section ArchivesMore.

Implicit Types fs : gmap (list string) FS.Node.

(** A regular member is written where its name resolves to, when the name
    is taken as it is. *)
Lemma mem_extract_within (resolve : Path -> Path) (data_filter : bool)
  (member : TarHandler.TarInfo) (dest : Path) (B : list string) fs (r : Exn + unit) fs' :
  data_filter = false ∨ PyStr.startswith "/" (TarHandler.name member) = false ->
  B `prefix_of` parts (resolve (dest </> TarHandler.name member)) ->
  TarHandler.mem_extract resolve data_filter member dest fs = (r, fs') ->
  FS.same_files_outside B fs fs'.
Proof.
  intros Hname Hin. unfold TarHandler.mem_extract.
  destruct (TarHandler.type member);
    try (intros [= <- <-]; apply same_files_outside_refl).
  assert (Hnm : (if data_filter then TarHandler.lstrip_slash (TarHandler.name member)
                 else TarHandler.name member) = TarHandler.name member).
  { destruct Hname as [->|Hname]; [done|]. destruct data_filter; [by apply lstrip_slash_id|done]. }
  rewrite Hnm.
  destruct (data_filter && _); [intros [= <- <-]; apply same_files_outside_refl|].
  unfold bind.
  destruct (fs_step _ fs) as [[e|[]] fs1] eqn:H1.
  - apply fs_step_cases in H1 as [[? _]|(e' & _ & _ & ->)]; [done|].
    intros [= <- <-]. apply same_files_outside_refl.
  - apply fs_step_cases in H1 as [[_ H1]|(e' & ? & _)]; [|done].
    assert (H01 : FS.same_files_outside B fs fs1).
    { destruct (FS.exists_ fs _); [injection H1 as <-; apply same_files_outside_refl|].
      by apply (mkdir_parents_outside _ _ _ _ H1). }
    intros H2. apply fs_step_cases in H2 as [[_ H2]|(e' & _ & _ & ->)]; [|done].
    eapply same_files_outside_trans; [exact H01|].
    eapply write_file_outside; [|exact H2]. done.
Qed.



(** A relative name without [..] stays under the directory it is joined to,
    when there are no links. *)
Lemma resolve_safe_name (cwd : list string) (dest : Path) (n : string) :
  PyStr.startswith "/" n = false -> TarHandler.has_parent_ref n = false ->
  PurePath.relative_to (PurePath.lexical_resolve cwd (dest </> n))
    (PurePath.lexical_resolve cwd dest) = true.
Proof.
  intros Hrel Hpar.
  unfold PurePath.join, PurePath.joinpath. simpl.
  rewrite (root_of_no_slash _ Hrel).
  rewrite lexical_resolve_extend; [apply relative_to_extend|].
  intros [Hin _]%filter_In. by apply (has_parent_ref_false n).
Qed.


End ArchivesMore.


Section ArchivesCount.

Implicit Types fs : gmap (list string) FS.Node.

Variable resolve : Path -> Path.
Variable py312 : bool.
Variable tar_extract :
  bool -> TarHandler.TarInfo -> Path -> M (gmap (list string) FS.Node) unit.



End ArchivesCount.


Section FilenameMore.

(** X18.  [sanitize_filename] returns one path component or nothing: the
    result has no slash, is never [.], is empty exactly when the path has no
    component at all, and is left alone when it is sanitized again. *)
Theorem sanitize_filename_component (filename : string) :
  let n := PathSanitizer.sanitize_filename filename in
  PyStr.contains "/" n = false ∧
  n ≠ "." ∧
  (n = "" <-> parts (PurePath.Path_of filename) = []) ∧
  PathSanitizer.sanitize_filename n = n.
Proof.
  intros n. subst n. unfold PathSanitizer.sanitize_filename.
  assert (Hempty : parts (PurePath.Path_of filename) = [] ->
                   PurePath.name (PurePath.Path_of filename) = "").
  { unfold PurePath.name. by intros ->. }
  destruct (name_cases filename) as [Hn|[Hs Hc]].
  - rewrite Hn. split; [done|]. split; [done|]. split; [|done].
    split; [|done]. intros _.
    destruct (parts (PurePath.Path_of filename)) as [|x l] eqn:Hp; [done|].
    exfalso. unfold PurePath.name in Hn. rewrite Hp in Hn.
    assert (Hin : In (List.last (x :: l) "") (parts (PurePath.Path_of filename))).
    { rewrite Hp. by apply last_in. }
    rewrite Hn in Hin. unfold PurePath.Path_of in Hin. simpl in Hin.
    by apply filter_In in Hin as [_ Hin].
  - split; [done|]. split; [by intros Heq; rewrite Heq in Hc|]. split.
    + split; [by intros Heq; rewrite Heq in Hc|].
      intros Hp. rewrite (Hempty Hp) in Hc. done.
    + by rewrite (Path_of_component _ Hs Hc).
Qed.

End FilenameMore.

(** ** Uploading an archive *)

Section UploadTar.

Import LocalSandbox.

Implicit Types fs : gmap (list string) FS.Node.

Variable base_dir : Path.
Variable utc_now : nat -> Z.

Lemma same_files_outside_mono (B D : list string) fs fs' :
  B `prefix_of` D -> FS.same_files_outside D fs fs' -> FS.same_files_outside B fs fs'.
Proof.
  intros HBD H k c Hk. apply H. intros HD. apply Hk. by etrans.
Qed.

(** The loop of [upload_tar]: a regular member whose name is relative and
    free of [..] is written below the destination. *)
Lemma upload_members_outside (members : list TarHandler.TarInfo)
  (dest_path sandbox_path : Path) (w : World) :
  Forall (fun member => TarHandler.isfile member = true ->
                        TarHandler.safe_name member = true) members ->
  FS.same_files_outside (parts (resolve_in w dest_path)) (fs w)
    (fs (upload_members members dest_path sandbox_path w).2).
Proof.
  revert w. induction members as [|member rest IH]; intros w Hsafe.
  - apply same_files_outside_refl.
  - apply Forall_cons in Hsafe as [Hm Hrest]. simpl. unfold bind, gets.
    destruct (negb (PurePath.relative_to _ _)); [by apply IH|].
    destruct (TarHandler.isfile member) eqn:Hfile.
    + unfold on_fs.
      destruct (TarHandler.mem_extract (resolve_in w) false member dest_path (fs w))
        as [[e|[]] fs1] eqn:H1.
      * simpl. apply (mem_extract_within _ _ _ _ (parts (resolve_in w dest_path))) in H1;
          [done|by left|].
        specialize (Hm eq_refl). unfold TarHandler.safe_name in Hm.
        apply andb_true_iff in Hm as [Hrel%negb_true_iff Hpar%negb_true_iff].
        apply relative_to_prefix. by apply resolve_safe_name.
      * apply (mem_extract_within _ _ _ _ (parts (resolve_in w dest_path))) in H1;
          [|by left|].
        -- eapply same_files_outside_trans; [exact H1|].
           apply (IH (set_fs fs1 w) Hrest).
        -- specialize (Hm eq_refl). unfold TarHandler.safe_name in Hm.
           apply andb_true_iff in Hm as [Hrel%negb_true_iff Hpar%negb_true_iff].
           apply relative_to_prefix. by apply resolve_safe_name.
    + by apply IH.
Qed.

(** X19.  [upload_tar] of an archive whose regular members have relative names
    without [..] leaves every regular file outside the sandbox root as it was:
    nothing is written, changed or removed there, whether the call returns or
    raises. (The check in the loop looks at the base name of a member, the
    extraction uses its full name; the condition on the names is what ties the
    two together.) *)
Theorem upload_tar_confined (session_id : string) (tar_data : TarHandler.TarData)
  (dest : string) (w : World) (info : SandboxInfo) :
  (∀ members, tar_data = TarHandler.Archive members ->
     Forall (fun member => TarHandler.isfile member = true ->
                           TarHandler.safe_name member = true) members) ->
  let w' := (upload_tar base_dir utc_now session_id tar_data dest w).2 in
  _sandboxes w' !! session_id = Some info ->
  FS.same_files_outside (parts (resolve_in w (path info))) (fs w) (fs w').
Proof.
  intros Hsafe w' Hinfo. subst w'.
  assert (Hreg : _sandboxes (upload_tar base_dir utc_now session_id tar_data dest w).2
                 = _sandboxes (create_if_missing base_dir utc_now session_id w).2).
  { unfold upload_tar. apply bind_tail_unchanged. intros _.
    apply unchanged_bind; [apply get_sandbox_registry|]. intros sandbox.
    apply unchanged_bind; [apply unchanged_gets|]. intros resolve.
    apply unchanged_bind; [apply mkdir_parents_registry|]. intros _.
    destruct tar_data as [|members]; [apply unchanged_raise|].
    apply unchanged_bind; [apply upload_members_registry|]. intros _.
    apply unchanged_ret. }
  rewrite Hreg in Hinfo. clear Hreg.
  pose proof (create_if_missing_files base_dir utc_now session_id w) as Hfiles.
  pose proof (create_if_missing_field cwd cwd_frame_field base_dir utc_now session_id w)
    as Hcwd.
  unfold upload_tar, bind.
  destruct (create_if_missing base_dir utc_now session_id w) as [[e|[]] w1];
    simpl in Hinfo, Hfiles, Hcwd.
  { intros k c _. apply Hfiles. }
  unfold get_sandbox. rewrite Hinfo. unfold gets. cbv beta iota.
  assert (Hres : resolve_in w1 = resolve_in w) by (unfold resolve_in; by rewrite Hcwd).
  rewrite Hres.
  set (dest_path := _sanitize_path (resolve_in w) dest (path info)).
  assert (Hfix : resolve_in w1 dest_path = dest_path).
  { rewrite Hres. apply sanitize_path_resolved. }
  assert (Hunder : parts (resolve_in w (path info)) `prefix_of` parts dest_path).
  { apply relative_to_prefix. subst dest_path.
    destruct (sanitize_path_cases (resolve_in w) dest (path info)) as [->|H]; [|done].
    by apply relative_to_join_relative. }
  unfold mkdir_parents, on_fs. rewrite Hfix.
  destruct (fs_step _ (fs w1)) as [r2 fs2] eqn:H2.
  apply fs_step_cases in H2 as [[-> H2]|(e & -> & _ & ->)].
  2:{ intros k c _. apply Hfiles. }
  assert (H02 : FS.same_files_outside (parts (resolve_in w (path info))) (fs w) fs2).
  { intros k c _. rewrite <- Hfiles. by apply (mkdir_parents_files _ _ _ H2). }
  destruct tar_data as [|members]; [exact H02|].
  pose proof (upload_members_outside members dest_path (path info) (set_fs fs2 w1)
                (Hsafe members eq_refl)) as H3.
  change (resolve_in (set_fs fs2 w1)) with (resolve_in w1) in H3.
  rewrite Hfix in H3. simpl in H3.
  destruct (upload_members members dest_path (path info) (set_fs fs2 w1)) as [[e|[]] w3];
    simpl in H3 |- *;
    (eapply same_files_outside_trans; [exact H02|];
     by apply (same_files_outside_mono _ (parts dest_path))).
Qed.

End UploadTar.

Lemma upload_tar_confined_witness :
  let w := LocalSandbox.mkWorld ∅ {[ ["etc"; "passwd"] := FS.File [] ]} ["home"; "u"] 0 [] [] in
  let after :=
    LocalSandbox.upload_tar (mkPath Slash ["tmp"]) (fun n => Z.of_nat n) "s"
      (TarHandler.Archive
         [TarHandler.mkTarInfo "docs/a.txt" 1 TarHandler.REGTYPE "" (list_byte_of_string "a")])
      "/workspace" w in
  after.1 = inr true ∧
  LocalSandbox.fs after.2 !! ["etc"; "passwd"] = Some (FS.File []) ∧
  LocalSandbox.fs after.2 !! ["tmp"; "noxrunner_sandbox_s"; "workspace"; "docs"; "a.txt"]
  = Some (FS.File (list_byte_of_string "a")).
Proof.
  intros w after.
  split; [vm_compute; reflexivity|]. split; [|vm_compute; reflexivity].
  apply (upload_tar_confined (mkPath Slash ["tmp"]) (fun n => Z.of_nat n) "s"
           (TarHandler.Archive
              [TarHandler.mkTarInfo "docs/a.txt" 1 TarHandler.REGTYPE ""
                 (list_byte_of_string "a")])
           "/workspace" w
           (LocalSandbox.mkSandboxInfo (mkPath Slash ["tmp"; "noxrunner_sandbox_s"])
              1 900000000 900)).
  - intros members [= <-]. constructor; [|constructor]. intros _. vm_compute. reflexivity.
  - vm_compute. reflexivity.
  - vm_compute. by intros [? [=]].
  - vm_compute. reflexivity.
Defined.

(** ** Where a request lands *)

Section Destinations.

Import LocalSandbox.



End Destinations.

